(** * Q-Emulator: the binary loader and the memory-dump writer

    A shallow embedding of [source/file_io.py]:

    - [load] reads a program compiled by Q-Compiler: a namespace header
      closed by a zero byte, then fixed-width instruction groups;
    - [QTEmulatorIO] writes the four memory segments and the six
      registers of an emulator to text files.

    Python values are modelled as follows.  A [bytes] object is a list of
    [Byte.byte]; an [int] is a [Z]; a tuple is a product; a Python list
    that is only appended to is a Rocq list.  An open binary file is the
    list of bytes that are still unread, and [file.read(n)] splits it.
    An exception raised by the code is an [outcome] of its own, and so is
    a loop that has not finished within the iterations it was given. *)

From Stdlib Require Import ZArith NArith List Lia Bool Arith String Ascii.
From Stdlib Require Import Strings.Byte DecimalString.
From Stdlib Require DecimalN DecimalPos DecimalFacts.
Import ListNotations.

Local Open Scope Z_scope.

(** ** Python values *)

Definition bytes := list byte.

(** The integer 0..255 that indexing a [bytes] object yields. *)
Definition byte_val (b : byte) : Z := Z.of_N (Byte.to_N b).

Definition byte_eqb (a b : byte) : bool := Byte.eqb a b.

(** [==] on [bytes]. *)
Fixpoint bytes_eqb (a b : bytes) : bool :=
  match a, b with
  | [], [] => true
  | x :: a', y :: b' => byte_eqb x y && bytes_eqb a' b'
  | _, _ => false
  end.

(** [b[i]]: [None] stands for the IndexError of an index out of range. *)
Definition index (b : bytes) (i : nat) : option Z :=
  option_map byte_val (nth_error b i).

(** [b[lo:hi]] for [0 <= lo <= hi]: a slice never raises, it is cut at
    the end of the object. *)
Definition slice (b : bytes) (lo hi : nat) : bytes :=
  firstn (hi - lo) (skipn lo b).

(** [int.from_bytes(b)]: the byte order defaults to big-endian, the
    result is unsigned, and the empty object gives 0. *)
Definition from_bytes (b : bytes) : Z :=
  fold_left (fun acc x => acc * 256 + byte_val x) b 0.

(** [file.read(n)] on the unread rest of a binary file: up to [n] bytes,
    fewer (possibly none) at the end of the file. *)
Definition read (n : nat) (file : bytes) : bytes * bytes :=
  (firstn n file, skipn n file).

(** ** Outcomes *)

Inductive PyError : Type :=
| Exception      (* [raise Exception] *)
| IndexError.    (* index out of range *)

Inductive outcome (A : Type) : Type :=
| Returned (a : A)
| Raised (e : PyError)
| OutOfFuel.

Arguments Returned {A} a.
Arguments Raised {A} e.
Arguments OutOfFuel {A}.

(** ** load *)

Module Loader.

(** An instruction tuple [(memory_flag, value, opcode)]. *)
Definition instruction : Type := Z * Z * Z.

Definition QT : bytes := [x51; x54].
Definition QM : bytes := [x51; x4d].
Definition NUL : bytes := [x00].

(** The header loop,
<<
    namespace = b''
    while (char := file.read(1)) != b'\x00':
        namespace += char
>>
    run for at most [fuel] iterations.  [Some (namespace, file)] is the
    state in which the loop exits; [None] says it is still running. *)
Fixpoint scan_namespace (fuel : nat) (namespace file : bytes)
  : option (bytes * bytes) :=
  match fuel with
  | O => None
  | S fuel' =>
      let (char, file') := read 1 file in
      if bytes_eqb char NUL then Some (namespace, file')
      else scan_namespace fuel' (namespace ++ char) file'
  end.

(** The body of the decoding loop after the read: lines 35 to 37.  The
    three subscripts are evaluated in this order, and the first one out
    of range raises. *)
Definition decode (raw_instruction : bytes) : outcome instruction :=
  match index raw_instruction 0 with
  | None => Raised IndexError
  | Some b0 =>
      let memory_flag := Z.land b0 1 in
      let value := from_bytes (slice raw_instruction 1 3) in
      match index raw_instruction 3 with
      | None => Raised IndexError
      | Some opcode => Returned (memory_flag, value, opcode)
      end
  end.

(** The width read for a namespace; [None] is the [else] branch. *)
Definition group_width (namespace : bytes) : option nat :=
  if bytes_eqb namespace QT then Some 4%nat
  else if bytes_eqb namespace QM then Some 3%nat
  else None.

(** The decoding loop, [while True: ...], for at most [fuel] iterations.
    [break] leaves the loop and the function returns [instructions]. *)
Fixpoint decode_loop (fuel : nat) (namespace file : bytes)
    (instructions : list instruction) : outcome (list instruction) :=
  match fuel with
  | O => OutOfFuel
  | S fuel' =>
      match group_width namespace with
      | None => Raised Exception
      | Some w =>
          let (raw_instruction, file') := read w file in
          match raw_instruction with
          | [] => Returned instructions
          | _ :: _ =>
              match decode raw_instruction with
              | Returned i =>
                  decode_loop fuel' namespace file' (instructions ++ [i])
              | Raised e => Raised e
              | OutOfFuel => OutOfFuel
              end
          end
      end
  end.

(** [load], on the contents of the file at [filepath]. *)
Definition load (fuel : nat) (file : bytes) : outcome (list instruction) :=
  match scan_namespace fuel [] file with
  | None => OutOfFuel
  | Some (namespace, file') => decode_loop fuel namespace file' []
  end.

End Loader.

(** ** QTEmulatorIO *)

Module Dump.

Local Open Scope nat_scope.

(** *** The emulator *)

Inductive segment : Type := Cache | Stack | AddrStack | Ports.

Inductive register : Type := ACC | PR | PC | FR | SP | ASP.

(** Modelled from the spec: the class [QTEmulator] of
    [source/qt_emulator.py] is not part of the sources at hand.  Its
    four memory segments are arrays of unsigned cells and its six
    registers are unsigned scalars; these are the ten attributes that
    [create_memory_dump] reads. *)
Record QTEmulator : Type := mkQTEmulator {
  cache : list N;
  stack : list N;
  address_stack : list N;
  ports : list N;
  accumulator : N;
  pointer_register : N;
  program_counter : N;
  flag_register : N;
  stack_pointer : N;
  address_stack_pointer : N
}.

(** An [ndarray] argument is a reference to the emulator's own array:
    [memory] names the segment, and every access goes to the emulator. *)
Definition segment_of (e : QTEmulator) (memory : segment) : list N :=
  match memory with
  | Cache => cache e
  | Stack => stack e
  | AddrStack => address_stack e
  | Ports => ports e
  end.

Definition register_of (e : QTEmulator) (r : register) : N :=
  match r with
  | ACC => accumulator e
  | PR => pointer_register e
  | PC => program_counter e
  | FR => flag_register e
  | SP => stack_pointer e
  | ASP => address_stack_pointer e
  end.

(** *** The world: the emulator object and the text files

    A file is known by its path and holds the text written so far; a
    path never written to holds the empty text. *)
Record world : Type := mkWorld {
  emulator : QTEmulator;
  files : string -> string
}.

Definition io (A : Type) : Type := world -> A * world.

Definition ret {A} (a : A) : io A := fun w => (a, w).

Definition bind {A B} (m : io A) (k : A -> io B) : io B :=
  fun w => let (a, w') := m w in k a w'.

Notation "x <- m ;; k" := (bind m (fun x => k))
  (at level 61, m at next level, right associativity).
Notation "m ;; k" := (bind m (fun _ => k))
  (at level 61, right associativity).

(** [for x in xs: body]. *)
Fixpoint for_ {A} (xs : list A) (body : A -> io unit) : io unit :=
  match xs with
  | [] => ret tt
  | x :: xs' => body x ;; for_ xs' body
  end.

(** [len(memory)]. *)
Definition len (memory : segment) : io nat :=
  fun w => (List.length (segment_of (emulator w) memory), w).

(** [memory[lo:hi]], the cells in the order a [for] visits them. *)
Definition getslice (memory : segment) (lo hi : nat) : io (list N) :=
  fun w => (firstn (hi - lo) (skipn lo (segment_of (emulator w) memory)), w).

(** [emulator.<register>.item()]. *)
Definition item (r : register) : io N :=
  fun w => (register_of (emulator w) r, w).

Definition set_file (path text : string) (fs : string -> string)
  : string -> string :=
  fun p => if String.eqb p path then text else fs p.

(** [open(path, "w", encoding="ASCII")]: the file is created or emptied.
    The handle is the path. *)
Definition open_w (path : string) : io string :=
  fun w => (path, mkWorld (emulator w) (set_file path EmptyString (files w))).

(** [file.write(text)] on a handle that stands at the end of its file,
    as a handle from [open_w] does from the start and after each write:
    the text goes behind what the file holds.  The handles of this model
    are those of [open_w]; a handle placed elsewhere in its file is not
    modelled. *)
Definition write (file text : string) : io unit :=
  fun w => (tt, mkWorld (emulator w)
                  (set_file file (String.append (files w file) text) (files w))).

(** *** Text formatting *)

Local Open Scope string_scope.

Definition nl : string := String (ascii_of_nat 10) EmptyString.

(** [str(n)] of a non-negative integer. *)
Definition str (n : N) : string := DecimalString.NilEmpty.string_of_uint (N.to_uint n).

(** [c * n]. *)
Fixpoint repeat_char (c : ascii) (n : nat) : string :=
  match n with
  | O => EmptyString
  | S n' => String c (repeat_char c n')
  end.

(** Alignment in a format specification: [>], [<] and [^] with a fill
    character.  A text longer than the width is left as it is; [^] puts
    the odd fill character on the right. *)
Definition align_right (fill : ascii) (width : nat) (s : string) : string :=
  repeat_char fill (width - String.length s) ++ s.

Definition align_left (fill : ascii) (width : nat) (s : string) : string :=
  s ++ repeat_char fill (width - String.length s).

Definition align_center (fill : ascii) (width : nat) (s : string) : string :=
  let pad := width - String.length s in
  repeat_char fill (pad / 2) ++ s ++ repeat_char fill (pad - pad / 2).

(** [f"{n:0{width}d}"] for [n >= 0]. *)
Definition format_zero_d (width : nat) (n : N) : string :=
  align_right "0" width (str n).

(** [f"{n: {width}d}"] for [n >= 0]: a space stands where the sign
    would. *)
Definition format_space_d (width : nat) (n : N) : string :=
  align_right " " width (" " ++ str n).

(** [sep.join(parts)]. *)
Fixpoint join (sep : string) (parts : list string) : string :=
  match parts with
  | [] => EmptyString
  | [p] => p
  | p :: ps => p ++ sep ++ join sep ps
  end.

(** [s.upper()] on ASCII text (code points below 128), where it raises
    the letters a to z and keeps every other character.  The names that
    [create_memory_dump] passes are ASCII; the properties that take any
    name ask for an ASCII one. *)
Definition upper_char (c : ascii) : ascii :=
  let n := nat_of_ascii c in
  if Nat.leb 97 n && Nat.leb n 122 then ascii_of_nat (n - 32) else c.

Fixpoint upper (s : string) : string :=
  match s with
  | EmptyString => EmptyString
  | String c s' => String (upper_char c) (upper s')
  end.

(** [range(start, stop, step)] for a positive step, by the number of
    values still to produce. *)
Fixpoint range_from (n start stop step : nat) : list nat :=
  match n with
  | O => []
  | S n' =>
      if Nat.ltb start stop then start :: range_from n' (start + step) stop step
      else []
  end.

Definition range (start stop step : nat) : list nat :=
  range_from stop start stop step.

(** *** The class *)

Definition offset : nat := 16.
Definition index_offset : nat := 4.
Definition added_offset : nat := 3.
Definition number_offset : nat := 5.
Definition section_size : nat :=
  offset * (number_offset + 1) + index_offset + added_offset.

Definition section_start (section_name : string) : string :=
  align_center "=" section_size ("[" ++ upper section_name ++ " SECTION START]").

Definition section_end (section_name : string) : string :=
  align_center "=" section_size ("[" ++ upper section_name ++ " SECTION END]").

(** One line of cells: the text written for [index] and the slice that
    starts there. *)
Definition row_text (index : nat) (cells : list N) : string :=
  nl ++ format_zero_d index_offset (N.of_nat index) ++ " | " ++
  join " " (map (format_zero_d number_offset) cells).

Definition _create_memory_dump (file : string) (memory : segment)
    (section_name : string) : io unit :=
  write file (section_start section_name ++ nl) ;;
  write file (repeat_char " " (index_offset + added_offset)) ;;
  for_ (seq 0 offset)
    (fun i => write file (format_space_d number_offset (N.of_nat i) ++ " ")) ;;
  n <- len memory ;;
  for_ (range 0 n offset)
    (fun index =>
       cells <- getslice memory index (index + offset) ;;
       write file (row_text index cells)) ;;
  write file (nl ++ section_end section_name ++ nl ++ nl).

Definition register_line (name : string) (value : N) : string :=
  align_left " " 4 name ++ " = " ++ str value ++ nl.

Definition create_memory_dump (filepath : string) : io unit :=
  file <- open_w (filepath ++ ".CACHE.dmp") ;;
  _create_memory_dump file Cache "CACHE" ;;
  file <- open_w (filepath ++ ".STACK.dmp") ;;
  _create_memory_dump file Stack "STACK" ;;
  file <- open_w (filepath ++ ".ADDR_STACK.dmp") ;;
  _create_memory_dump file AddrStack "ADDR_STACK" ;;
  file <- open_w (filepath ++ ".PORTS.dmp") ;;
  _create_memory_dump file Ports "PORTS" ;;
  file <- open_w (filepath ++ ".REGISTERS.dmp") ;;
  write file (align_center "=" section_size "[REGISTER SECTION START]" ++ nl) ;;
  v <- item ACC ;; write file (register_line "ACC" v) ;;
  v <- item PR ;; write file (register_line "PR" v) ;;
  v <- item PC ;; write file (register_line "PC" v) ;;
  v <- item FR ;; write file (register_line "FR" v) ;;
  v <- item SP ;; write file (register_line "SP" v) ;;
  v <- item ASP ;; write file (register_line "ASP" v) ;;
  write file (align_center "=" section_size "[REGISTER SECTION END]" ++ nl).

End Dump.

Import Loader.

(** * The data model and the wide layout, as the specification words them *)

Module Spec.

(** The instruction of the data model:
    [{memory_flag: bool, value: u16, opcode: u8}]. *)
Record Instruction : Type := mkInstruction {
  memory_flag : bool;
  value : Z;
  opcode : Z
}.

(** The tuple that [load] builds for an instruction. *)
Definition to_tuple (i : Instruction) : instruction :=
  (Z.b2z (memory_flag i), value i, opcode i).

(** A tuple fits the data model. *)
Definition fits_model (t : instruction) : Prop :=
  let '(flag, v, op) := t in
  (flag = 0 \/ flag = 1) /\ 0 <= v < 2 ^ 16 /\ 0 <= op < 2 ^ 8.

(** The byte with the value [z mod 256]. *)
Definition byte_of (z : Z) : byte :=
  match Byte.of_N (Z.to_N (z mod 256)) with
  | Some b => b
  | None => x00
  end.

(** Modelled from the spec: the encoder belongs to the compiler and is
    not part of the sources at hand.  In the wide layout the
    least-significant bit of byte 0 is [memory_flag], bytes 1 and 2 are
    [value] in big-endian order and byte 3 is [opcode].  The layout says
    nothing of the seven upper bits of byte 0: they are [reserved]. *)
Definition encode_wide (reserved : Z) (i : Instruction) : bytes :=
  [ byte_of (2 * reserved + Z.b2z (memory_flag i));
    byte_of (value i / 256);
    byte_of (value i mod 256);
    byte_of (opcode i) ].

(** The triple that the wide layout reads off four bytes. *)
Definition wide_triple (b0 b1 b2 b3 : byte) : instruction :=
  (byte_val b0 mod 2, byte_val b1 * 256 + byte_val b2, byte_val b3).

(** The triples of the complete four-byte groups of a program body, in
    order. *)
Fixpoint wide_groups (body : bytes) : list instruction :=
  match body with
  | b0 :: b1 :: b2 :: b3 :: rest => wide_triple b0 b1 b2 b3 :: wide_groups rest
  | _ => []
  end.

(** The bytes left over after the last complete four-byte group. *)
Fixpoint trailing (body : bytes) : bytes :=
  match body with
  | _ :: _ :: _ :: _ :: rest => trailing rest
  | _ => body
  end.

End Spec.

Import Spec.

(** * What a dump holds, as a text *)

Module DumpText.

Import Dump.

Local Open Scope nat_scope.

(** The texts of a list, one after the other. *)
Definition concat_text (parts : list string) : string :=
  fold_right String.append EmptyString parts.

(** The cells cut into lines of [offset] cells, each line with the index
    of its first cell. *)
Fixpoint chunks_from (fuel index : nat) (cells : list N)
  : list (nat * list N) :=
  match fuel with
  | O => []
  | S fuel' =>
      match cells with
      | [] => []
      | _ :: _ =>
          (index, firstn offset cells)
          :: chunks_from fuel' (index + offset) (skipn offset cells)
      end
  end.

Definition dump_rows (cells : list N) : list (nat * list N) :=
  chunks_from (List.length cells) 0 cells.

(** The line of column numbers. *)
Definition column_header : string :=
  concat_text
    (map (fun i => String.append (format_space_d number_offset (N.of_nat i)) " ")
         (seq 0 offset)).

(** The text of one section: the start banner, the column numbers, the
    lines of cells and the end banner. *)
Definition segment_text (section_name : string) (cells : list N) : string :=
  String.append (String.append (section_start section_name) nl)
  (String.append (repeat_char " " (index_offset + added_offset))
  (String.append column_header
  (String.append
     (concat_text (map (fun r => row_text (fst r) (snd r)) (dump_rows cells)))
     (String.append nl
        (String.append (section_end section_name) (String.append nl nl)))))).

(** The text of the register file. *)
Definition registers_text (e : QTEmulator) : string :=
  String.append
    (String.append (align_center "=" section_size "[REGISTER SECTION START]") nl)
  (String.append (register_line "ACC" (accumulator e))
  (String.append (register_line "PR" (pointer_register e))
  (String.append (register_line "PC" (program_counter e))
  (String.append (register_line "FR" (flag_register e))
  (String.append (register_line "SP" (stack_pointer e))
  (String.append (register_line "ASP" (address_stack_pointer e))
     (String.append (align_center "=" section_size "[REGISTER SECTION END]")
        nl))))))).

(** [w'] is [w] with [text] added at the end of [file], and nothing else
    changed. *)
Definition appends (file text : string) (w w' : world) : Prop :=
  emulator w' = emulator w /\
  forall p, files w' p =
            if String.eqb p file then String.append (files w file) text
            else files w p.

(** [w'] is [w] with the file at [path] holding exactly [text], and
    nothing else changed. *)
Definition creates (path text : string) (w w' : world) : Prop :=
  emulator w' = emulator w /\
  forall p, files w' p = if String.eqb p path then text else files w p.

(** A line of cells without its line break. *)
Definition row_body (index : nat) (cells : list N) : string :=
  String.append (format_zero_d index_offset (N.of_nat index))
    (String.append " | "
       (join " " (map (format_zero_d number_offset) cells))).

(** An emulator to run the dump on. *)
Definition small_emulator : QTEmulator :=
  mkQTEmulator (map N.of_nat (seq 0 20)) [1; 2; 3]%N [] [70000]%N
    1 2 3 4 5 6.

End DumpText.

(** * Kinds of characters in a text *)

Module TextShape.

(** Every character of the text passes the test. *)
Fixpoint all_chars (ok : ascii -> bool) (s : string) : bool :=
  match s with
  | EmptyString => true
  | String c s' => ok c && all_chars ok s'
  end.

(** The text is empty or starts with a character that fails the test. *)
Definition stops (ok : ascii -> bool) (s : string) : Prop :=
  match s with
  | EmptyString => True
  | String c _ => ok c = false
  end.

Definition is_digit (c : ascii) : bool :=
  let n := nat_of_ascii c in Nat.leb 48 n && Nat.leb n 57.

Definition not_newline (c : ascii) : bool :=
  negb (Ascii.eqb c (ascii_of_nat 10)).

(** A code point below 128. *)
Definition is_ascii (c : ascii) : bool := Nat.ltb (nat_of_ascii c) 128.

(** Any character but [c]. *)
Definition other_than (c : ascii) (x : ascii) : bool := negb (Ascii.eqb x c).

End TextShape.

(** * A reader of section dumps

    How the text of a section is read back: the first two lines are the
    banner and the column numbers; each following line that starts with
    a digit is a line of cells, made of the index, a bar and the cells,
    all set apart by single spaces; the first line that does not start
    with a digit ends the cells. *)

Module DumpReader.

Import TextShape.

(** [s.split(c)]. *)
Fixpoint split_on (c : ascii) (s : string) : list string :=
  match s with
  | EmptyString => [EmptyString]
  | String x s' =>
      if Ascii.eqb x c then EmptyString :: split_on c s'
      else match split_on c s' with
           | [] => [String x EmptyString]
           | h :: t => String x h :: t
           end
  end.

(** [int(s)] on a text of decimal digits; [None] on any other text. *)
Definition read_number (s : string) : option N :=
  match s with
  | EmptyString => None
  | String _ _ =>
      option_map N.of_uint (DecimalString.NilEmpty.uint_of_string s)
  end.

Fixpoint read_numbers (texts : list string) : option (list N) :=
  match texts with
  | [] => Some []
  | t :: texts' =>
      match read_number t, read_numbers texts' with
      | Some n, Some ns => Some (n :: ns)
      | _, _ => None
      end
  end.

(** One line of cells: the index, the bar, the cells. *)
Definition read_row (line : string) : option (N * list N) :=
  match split_on " " line with
  | index :: bar :: cells =>
      if String.eqb bar "|" then
        match read_number index, read_numbers cells with
        | Some i, Some cs => Some (i, cs)
        | _, _ => None
        end
      else None
  | _ => None
  end.

Definition starts_with_digit (s : string) : bool :=
  match s with
  | EmptyString => false
  | String c _ => is_digit c
  end.

(** The lines of cells, up to the first line that is not one. *)
Fixpoint read_rows (lines : list string) : option (list (N * list N)) :=
  match lines with
  | [] => Some []
  | line :: lines' =>
      if starts_with_digit line then
        match read_row line, read_rows lines' with
        | Some r, Some rs => Some (r :: rs)
        | _, _ => None
        end
      else Some []
  end.

(** The lines of cells of a section, each with its index. *)
Definition read_section (text : string) : option (list (N * list N)) :=
  match split_on (ascii_of_nat 10) text with
  | _ :: _ :: lines => read_rows lines
  | _ => None
  end.

(** The text of a section holds the cells [cells], all of them and in
    the order of their indices: read back, its lines of cells put end to
    end are [cells], and the [k]-th line carries the index [16 * k] and
    the cells from there on, sixteen of them or what is left. *)
Definition emits_in_order (text : string) (cells : list N) : Prop :=
  exists rows,
    read_section text = Some rows
    /\ List.concat (map snd rows) = cells
    /\ forall (k : nat) (i : N) (row : list N),
         nth_error rows k = Some (i, row) ->
         i = N.of_nat (16 * k)
         /\ row = firstn 16 (skipn (16 * k) cells).

End DumpReader.

(** * Properties of [load] *)

(** ** Runs on small files *)

Example load_two_groups :
  load 11 [x51; x54; x00; x01; x01; x2c; x07; xfe; xff; xff; x09]
  = Returned [(1, 300, 7); (0, 65535, 9)].
Proof. reflexivity. Qed.

Example load_header_only : load 3 [x51; x54; x00] = Returned [].
Proof. reflexivity. Qed.

Example load_narrow_header_only : load 3 [x51; x4d; x00] = Returned [].
Proof. reflexivity. Qed.

Example load_empty_header : load 1 [x00] = Raised Exception.
Proof. reflexivity. Qed.

Example load_three_trailing :
  load 7 [x51; x54; x00; x01; x01; x2c] = Raised IndexError.
Proof. reflexivity. Qed.

Example load_empty_file : load 100 [] = OutOfFuel.
Proof. reflexivity. Qed.

(** ** Bytes *)

Lemma byte_val_range (b : byte) : 0 <= byte_val b < 256.
Proof.
  unfold byte_val. pose proof (Byte.to_N_bounded b). lia.
Qed.

Lemma byte_eqb_eq (a b : byte) : byte_eqb a b = true <-> a = b.
Proof.
  unfold byte_eqb. split; intro H.
  - apply Byte.byte_dec_bl. exact H.
  - apply Byte.byte_dec_lb. exact H.
Qed.

Lemma bytes_eqb_eq (a b : bytes) : bytes_eqb a b = true <-> a = b.
Proof.
  revert b. induction a as [|x a IH]; intros [|y b]; simpl;
    try (split; [discriminate | discriminate]); try tauto.
  rewrite andb_true_iff, byte_eqb_eq, IH. split.
  - intros [-> ->]. reflexivity.
  - intros E. injection E as -> ->. split; reflexivity.
Qed.

Lemma bytes_eqb_neq (a b : bytes) : a <> b -> bytes_eqb a b = false.
Proof.
  intros N. destruct (bytes_eqb a b) eqn:E; [|reflexivity].
  apply bytes_eqb_eq in E. contradiction.
Qed.

(** Induction on a byte string, four bytes at a time. *)
Lemma group_ind (P : bytes -> Prop) :
  P [] ->
  (forall a, P [a]) ->
  (forall a b, P [a; b]) ->
  (forall a b c, P [a; b; c]) ->
  (forall a b c d rest, P rest -> P (a :: b :: c :: d :: rest)) ->
  forall body, P body.
Proof.
  intros H0 H1 H2 H3 H4.
  fix IH 1.
  intros [|a [|b [|c [|d rest]]]].
  - exact H0.
  - apply H1.
  - apply H2.
  - apply H3.
  - apply H4. apply IH.
Qed.

(** ** The header loop *)

Lemma scan_namespace_no_nul (file : bytes) :
  ~ In x00 file ->
  forall fuel namespace, scan_namespace fuel namespace file = None.
Proof.
  intros Hno fuel. revert file Hno.
  induction fuel as [|fuel IH]; intros file Hno namespace; [reflexivity|].
  destruct file as [|b file]; simpl.
  - apply (IH [] Hno).
  - destruct (byte_eqb b x00) eqn:E.
    + apply byte_eqb_eq in E. subst b. exfalso. apply Hno. left. reflexivity.
    + simpl. apply IH. intros Hin. apply Hno. right. exact Hin.
Qed.

Lemma scan_namespace_found (header rest : bytes) :
  ~ In x00 header ->
  forall fuel namespace,
    (List.length header < fuel)%nat ->
    scan_namespace fuel namespace (header ++ x00 :: rest)
    = Some (namespace ++ header, rest).
Proof.
  induction header as [|b header IH]; intros Hno fuel namespace Hfuel.
  - destruct fuel as [|fuel]; [simpl in Hfuel; lia|].
    simpl. rewrite app_nil_r. reflexivity.
  - destruct fuel as [|fuel]; [simpl in Hfuel; lia|].
    simpl. destruct (byte_eqb b x00) eqn:E.
    + apply byte_eqb_eq in E. subst b. exfalso. apply Hno. left. reflexivity.
    + simpl. rewrite IH.
      * rewrite <- app_assoc. reflexivity.
      * intros Hin. apply Hno. right. exact Hin.
      * simpl in Hfuel. lia.
Qed.


(** ** Decoding one group *)

Lemma land_1_mod_2 (z : Z) : Z.land z 1 = z mod 2.
Proof. change 1 with (Z.ones 1). rewrite Z.land_ones by lia. reflexivity. Qed.

Lemma decode_wide (b0 b1 b2 b3 : byte) :
  decode [b0; b1; b2; b3] = Returned (wide_triple b0 b1 b2 b3).
Proof.
  unfold decode, wide_triple, index, slice, from_bytes. simpl.
  rewrite land_1_mod_2. reflexivity.
Qed.

Lemma from_bytes_two (b : bytes) :
  (List.length b <= 2)%nat -> 0 <= from_bytes b < 2 ^ 16.
Proof.
  destruct b as [|x [|y [|z b]]]; simpl; intros H; try lia;
    unfold from_bytes; simpl.
  - lia.
  - pose proof (byte_val_range x). lia.
  - pose proof (byte_val_range x). pose proof (byte_val_range y). lia.
Qed.

Lemma decode_fits (raw : bytes) (t : instruction) :
  decode raw = Returned t -> fits_model t.
Proof.
  unfold decode, index.
  destruct (nth_error raw 0) as [b0|]; cbn [option_map]; [|discriminate].
  destruct (nth_error raw 3) as [b3|]; cbn [option_map]; [|discriminate].
  intros E. injection E as E. subst t. unfold fits_model.
  split; [|split].
  - rewrite land_1_mod_2.
    pose proof (Z.mod_pos_bound (byte_val b0) 2 ltac:(lia)). lia.
  - apply from_bytes_two. unfold slice. rewrite length_firstn. lia.
  - apply byte_val_range.
Qed.

(** ** The decoding loop *)

Lemma group_width_QT : group_width QT = Some 4%nat.
Proof. reflexivity. Qed.

Lemma group_width_QM : group_width QM = Some 3%nat.
Proof. reflexivity. Qed.

Lemma group_width_other (namespace : bytes) :
  namespace <> QT -> namespace <> QM -> group_width namespace = None.
Proof.
  intros H1 H2. unfold group_width.
  rewrite (bytes_eqb_neq _ _ H1), (bytes_eqb_neq _ _ H2). reflexivity.
Qed.

(** One turn of the loop on a complete wide group. *)
Lemma decode_loop_wide_step fuel (b0 b1 b2 b3 : byte) rest acc :
  decode_loop (S fuel) QT (b0 :: b1 :: b2 :: b3 :: rest) acc
  = decode_loop fuel QT rest (acc ++ [wide_triple b0 b1 b2 b3]).
Proof.
  cbn [decode_loop]. rewrite group_width_QT. cbn [read firstn skipn].
  rewrite decode_wide. reflexivity.
Qed.

(** The whole loop under the wide encoding: the complete groups are
    decoded in order, and left-over bytes raise. *)
Lemma decode_loop_wide (body : bytes) :
  forall fuel acc,
    (List.length body < fuel)%nat ->
    decode_loop fuel QT body acc =
    match trailing body with
    | [] => Returned (acc ++ wide_groups body)
    | _ :: _ => Raised IndexError
    end.
Proof.
  induction body as [|a|a b|a b c|a b c d rest IH] using group_ind;
    intros fuel acc Hfuel;
    (destruct fuel as [|fuel]; [simpl in Hfuel; lia|]).
  - simpl. rewrite app_nil_r. reflexivity.
  - reflexivity.
  - reflexivity.
  - reflexivity.
  - rewrite decode_loop_wide_step. rewrite IH by (simpl in Hfuel; lia).
    cbn [trailing wide_groups]. destruct (trailing rest); [|reflexivity].
    rewrite <- app_assoc. reflexivity.
Qed.

(** Under the narrow encoding the first group read raises. *)
Lemma decode_loop_narrow (body : bytes) fuel acc :
  body <> [] ->
  decode_loop (S fuel) QM body acc = Raised IndexError.
Proof.
  intros Hne. cbn [decode_loop]. rewrite group_width_QM.
  destruct body as [|a [|b [|c rest]]]; [congruence| | |]; reflexivity.
Qed.

(** Whatever the namespace, the loop returns tuples that fit the model
    when it started with such tuples. *)
Lemma decode_loop_fits fuel :
  forall namespace file acc l,
    Forall fits_model acc ->
    decode_loop fuel namespace file acc = Returned l ->
    Forall fits_model l.
Proof.
  induction fuel as [|fuel IH]; intros namespace file acc l Hacc; simpl;
    [discriminate|].
  destruct (group_width namespace) as [w|]; [|discriminate].
  destruct (firstn w file) as [|r raw] eqn:Eraw.
  - intros E. injection E as <-. exact Hacc.
  - destruct (decode (r :: raw)) as [t|e|] eqn:Edec; try discriminate.
    apply IH. apply Forall_app. split; [exact Hacc|].
    constructor; [|constructor]. eapply decode_fits. exact Edec.
Qed.



(** What the loop returns under the wide encoding, whatever the fuel. *)
Lemma decode_loop_wide_returned (body : bytes) :
  forall fuel acc l,
    decode_loop fuel QT body acc = Returned l ->
    l = acc ++ wide_groups body /\ trailing body = [].
Proof.
  induction body as [|a|a b|a b c|a b c d rest IH] using group_ind;
    intros [|fuel] acc l; try discriminate.
  - simpl. intros E. injection E as E. subst l. rewrite app_nil_r.
    split; reflexivity.
  - rewrite decode_loop_wide_step. intros E.
    destruct (IH _ _ _ E) as [-> Ht]. cbn [wide_groups trailing].
    rewrite <- app_assoc. split; [reflexivity | exact Ht].
Qed.

(** ** Groups and slices *)

Lemma wide_groups_length (body : bytes) :
  List.length body
  = (4 * List.length (wide_groups body) + List.length (trailing body))%nat
  /\ (List.length (trailing body) < 4)%nat.
Proof.
  induction body as [|a|a b|a b c|a b c d rest IH] using group_ind;
    cbn [wide_groups trailing List.length]; lia.
Qed.

Lemma trailing_nil_iff (body : bytes) :
  trailing body = [] <-> (List.length body mod 4 = 0)%nat.
Proof.
  destruct (wide_groups_length body) as [E Hlt]. rewrite E.
  rewrite Nat.add_comm, Nat.mul_comm, Nat.Div0.mod_add,
    Nat.mod_small by exact Hlt.
  destruct (trailing body); simpl; split; intros; congruence.
Qed.

Lemma slice_group_0 (a b c d : byte) rest :
  slice (a :: b :: c :: d :: rest) 0 4 = [a; b; c; d].
Proof. reflexivity. Qed.

Lemma slice_group_S (a b c d : byte) rest (i : nat) :
  slice (a :: b :: c :: d :: rest) (4 * S i) (4 * S i + 4)
  = slice rest (4 * i) (4 * i + 4).
Proof.
  unfold slice.
  replace (4 * S i + 4 - 4 * S i)%nat with (4 * i + 4 - 4 * i)%nat by lia.
  replace (4 * S i)%nat with (S (S (S (S (4 * i))))) by lia.
  reflexivity.
Qed.

(** The [i]-th triple of [wide_groups] is the one decoded from the
    [i]-th four-byte slice. *)
Lemma wide_groups_nth (body : bytes) :
  forall i,
    (i < List.length (wide_groups body))%nat ->
    decode (slice body (4 * i) (4 * i + 4))
    = Returned (nth i (wide_groups body) (0, 0, 0)).
Proof.
  induction body as [|a|a b|a b c|a b c d rest IH] using group_ind;
    intros i Hi; cbn [wide_groups List.length] in Hi; try lia.
  destruct i as [|i].
  - rewrite slice_group_0. apply decode_wide.
  - rewrite slice_group_S. cbn [wide_groups nth]. apply IH. lia.
Qed.

(** ** [load] as a whole *)

Lemma load_header (header rest : bytes) fuel :
  ~ In x00 header ->
  (List.length header < fuel)%nat ->
  load fuel (header ++ x00 :: rest) = decode_loop fuel header rest [].
Proof.
  intros Hno Hfuel. unfold load.
  rewrite (scan_namespace_found header rest Hno fuel [] Hfuel).
  reflexivity.
Qed.

Lemma scan_namespace_some fuel :
  forall namespace file ns rest,
    scan_namespace fuel namespace file = Some (ns, rest) ->
    exists header,
      file = header ++ x00 :: rest /\ ns = namespace ++ header /\
      ~ In x00 header.
Proof.
  induction fuel as [|fuel IH]; intros namespace file ns rest; [discriminate|].
  destruct file as [|b file]; simpl.
  - intros E. destruct (IH _ _ _ _ E) as (header & Hf & _ & _).
    destruct header; discriminate.
  - destruct (byte_eqb b x00) eqn:Eb.
    + apply byte_eqb_eq in Eb. subst b. simpl. intros E. injection E as <- <-.
      exists []. rewrite app_nil_r. repeat split. intros [].
    + simpl. intros E. destruct (IH _ _ _ _ E) as (header & -> & -> & Hno).
      exists (b :: header). rewrite <- app_assoc. repeat split.
      intros [Hb|Hin]; [|contradiction].
      subst b. discriminate Eb.
Qed.

Lemma QT_no_nul : ~ In x00 QT.
Proof. intros [H|[H|[]]]; discriminate. Qed.

Lemma QM_no_nul : ~ In x00 QM.
Proof. intros [H|[H|[]]]; discriminate. Qed.

Lemma load_wide (body : bytes) fuel :
  (3 <= fuel)%nat ->
  load fuel (QT ++ NUL ++ body) = decode_loop fuel QT body [].
Proof.
  intros Hfuel. apply (load_header QT body fuel QT_no_nul). simpl. lia.
Qed.

Lemma load_narrow (body : bytes) fuel :
  (3 <= fuel)%nat ->
  load fuel (QM ++ NUL ++ body) = decode_loop fuel QM body [].
Proof.
  intros Hfuel. apply (load_header QM body fuel QM_no_nul). simpl. lia.
Qed.

(** Under the narrow encoding every body that is not empty raises: the
    group has three bytes and the opcode is read at index 3. *)
Lemma load_narrow_raises (body : bytes) fuel :
  body <> [] -> (3 <= fuel)%nat ->
  load fuel (QM ++ NUL ++ body) = Raised IndexError.
Proof.
  intros Hne Hfuel. rewrite load_narrow by exact Hfuel.
  destruct fuel as [|fuel]; [lia|]. apply decode_loop_narrow. exact Hne.
Qed.


(** Every run that returns: the file has a header QT followed by
    complete groups only, or a header QM and nothing after it. *)
Lemma load_returned fuel (file : bytes) (l : list instruction) :
  load fuel file = Returned l ->
  exists header body,
    file = header ++ x00 :: body /\
    ((header = QT /\ l = wide_groups body /\ trailing body = []) \/
     (header = QM /\ l = [] /\ body = [])).
Proof.
  unfold load.
  destruct (scan_namespace fuel [] file) as [[ns body]|] eqn:Es;
    [|discriminate].
  apply scan_namespace_some in Es. destruct Es as (header & -> & -> & _).
  cbn [app]. intros Hl. exists header, body. split; [reflexivity|].
  destruct fuel as [|fuel]; [discriminate|].
  destruct (bytes_eqb header QT) eqn:Eqt.
  - apply bytes_eqb_eq in Eqt. subst header. left.
    apply decode_loop_wide_returned in Hl. destruct Hl as [-> Ht].
    repeat split. exact Ht.
  - destruct (bytes_eqb header QM) eqn:Eqm.
    + apply bytes_eqb_eq in Eqm. subst header. right.
      destruct body as [|b body].
      * simpl in Hl. injection Hl as Hl. subst l. repeat split.
      * rewrite decode_loop_narrow in Hl by discriminate. discriminate.
    + cbn [decode_loop] in Hl. unfold group_width in Hl.
      rewrite Eqt, Eqm in Hl. discriminate.
Qed.




(** ** The wide encoder *)

Lemma byte_val_of (z : Z) : byte_val (byte_of z) = z mod 256.
Proof.
  unfold byte_val, byte_of.
  pose proof (Z.mod_pos_bound z 256 ltac:(lia)) as Hz.
  destruct (Byte.of_N (Z.to_N (z mod 256))) as [b|] eqn:E.
  - apply Byte.to_of_N_iff in E. rewrite E. lia.
  - apply Byte.of_N_None_iff in E. lia.
Qed.

Lemma decode_encode_wide (reserved : Z) (i : Instruction) :
  0 <= value i < 2 ^ 16 -> 0 <= opcode i < 2 ^ 8 ->
  decode (encode_wide reserved i) = Returned (to_tuple i).
Proof.
  intros Hv Ho. unfold encode_wide. rewrite decode_wide.
  unfold wide_triple, to_tuple. rewrite !byte_val_of.
  f_equal. f_equal; [f_equal|].
  - rewrite Z.mod_mod_divide by (exists 128; reflexivity).
    rewrite Z.add_comm, Z.mul_comm, Z.mod_add by lia.
    destruct (memory_flag i); reflexivity.
  - rewrite (Z.mod_small (value i / 256)).
    + rewrite Z.mod_mod by lia. rewrite Z.mul_comm.
      symmetry. apply Z.div_mod. lia.
    + split; [apply Z.div_pos; lia|].
      apply Z.div_lt_upper_bound; lia.
  - apply Z.mod_small. lia.
Qed.

(** * The claims on [load] *)

(** C1.  A four-byte group decoded under the wide (QT) encoding gives the
    triple whose memory flag is the least-significant bit of byte 0,
    whose value is the big-endian 16-bit integer of bytes 1 and 2 and
    whose opcode is byte 3; the loop appends this triple and goes on
    with the bytes after the group. *)
Theorem decode_wide_layout (b0 b1 b2 b3 : byte) :
  decode [b0; b1; b2; b3]
  = Returned (Z.b2z (Z.testbit (byte_val b0) 0),
              byte_val b1 * 256 + byte_val b2,
              byte_val b3)
  /\ forall fuel rest instructions,
       decode_loop (S fuel) QT (b0 :: b1 :: b2 :: b3 :: rest) instructions
       = decode_loop fuel QT rest
           (instructions ++ [(Z.b2z (Z.testbit (byte_val b0) 0),
                              byte_val b1 * 256 + byte_val b2,
                              byte_val b3)]).
Proof.
  rewrite Z.bit0_mod. split.
  - apply decode_wide.
  - intros fuel rest instructions. apply decode_loop_wide_step.
Qed.

(** C2 fails on the code.  A QT file with one complete group followed
    by a single byte ends with fewer bytes than a group needs.  The read
    gives one byte, the test for the end of the file (line 32) lets it
    through since it is not empty, and the opcode subscript raises:
    [load] does not return the instruction decoded so far. *)
Theorem load_partial_group_raises :
  load 8 [x51; x54; x00; x01; x01; x2c; x07; xfe] = Raised IndexError.
Proof. reflexivity. Qed.

(** C3 fails on the code.  A QM program with one complete three-byte
    group: [load] reads three bytes and then takes the opcode at index 3,
    which is out of range. *)
Theorem load_narrow_group_index_error :
  load 6 [x51; x4d; x00; x01; x01; x2c] = Raised IndexError.
Proof. reflexivity. Qed.

(** C4.  The instruction [{memory_flag=true, value=300, opcode=7}],
    encoded in the wide four-byte form (whatever the encoder puts in the
    seven upper bits of byte 0), is decoded back to the triple
    [(1, 300, 7)]: by the decoding step, and by [load] on the program
    made of the QT header and this one group. *)
Theorem decode_encode_wide_300 (reserved : Z) :
  decode (encode_wide reserved (mkInstruction true 300 7))
  = Returned (1, 300, 7)
  /\ forall fuel,
       load (3 + fuel)
         (QT ++ NUL ++ encode_wide reserved (mkInstruction true 300 7))
       = Returned [(1, 300, 7)].
Proof.
  assert (Hd : decode (encode_wide reserved (mkInstruction true 300 7))
               = Returned (1, 300, 7)).
  { apply (decode_encode_wide reserved (mkInstruction true 300 7));
      simpl; lia. }
  split; [exact Hd|]. intros fuel.
  rewrite load_wide by lia.
  unfold encode_wide in *. cbn [Nat.add].
  rewrite decode_loop_wide_step. rewrite decode_wide in Hd.
  match goal with
  | |- context [wide_triple ?a ?b ?c ?d] =>
      replace (wide_triple a b c d) with (1, 300, 7) by congruence
  end.
  reflexivity.
Qed.

(** C5.  A file made of the header QT, the zero byte and exactly [4*k]
    more bytes: [load] returns a list of exactly [k] tuples, and the
    [i]-th tuple is the one decoded from the [i]-th four-byte group after
    the terminator. *)
Theorem load_wide_groups (body : bytes) (k fuel : nat) :
  List.length body = (4 * k)%nat ->
  (List.length (QT ++ NUL ++ body) <= fuel)%nat ->
  exists l,
    load fuel (QT ++ NUL ++ body) = Returned l
    /\ List.length l = k
    /\ forall i, (i < k)%nat ->
         decode (slice body (4 * i) (4 * i + 4)) = Returned (nth i l (0, 0, 0)).
Proof.
  intros Hlen Hfuel. rewrite !length_app in Hfuel. simpl in Hfuel.
  exists (wide_groups body).
  assert (Ht : trailing body = []).
  { apply trailing_nil_iff. rewrite Hlen, Nat.mul_comm.
    apply Nat.Div0.mod_mul. }
  destruct (wide_groups_length body) as [Hl _]. rewrite Ht in Hl.
  simpl in Hl. assert (Hk : List.length (wide_groups body) = k) by lia.
  split; [|split].
  - rewrite load_wide by lia.
    rewrite (decode_loop_wide body fuel []) by lia. rewrite Ht. reflexivity.
  - exact Hk.
  - intros i Hi. apply wide_groups_nth. lia.
Qed.

Lemma load_wide_groups_witness :
  exists l,
    load 11 (QT ++ NUL ++ [x01; x01; x2c; x07; xfe; xff; xff; x09])
    = Returned l
    /\ List.length l = 2%nat
    /\ forall i, (i < 2)%nat ->
         decode (slice [x01; x01; x2c; x07; xfe; xff; xff; x09]
                   (4 * i) (4 * i + 4))
         = Returned (nth i l (0, 0, 0)).
Proof.
  apply (load_wide_groups [x01; x01; x2c; x07; xfe; xff; xff; x09] 2 11).
  - reflexivity.
  - simpl. lia.
Defined.

(** C6.  When the header that the zero byte closes is neither QT nor QM,
    [load] raises (the bare [Exception] of the [else] branch) and returns
    no list, whatever follows the header. *)
Theorem load_unknown_namespace (header rest : bytes) (fuel : nat) :
  ~ In x00 header ->
  header <> QT -> header <> QM ->
  (List.length (header ++ x00 :: rest) <= fuel)%nat ->
  load fuel (header ++ x00 :: rest) = Raised Exception.
Proof.
  intros Hno Hqt Hqm Hfuel. rewrite length_app in Hfuel. simpl in Hfuel.
  rewrite load_header by (exact Hno || lia).
  destruct fuel as [|fuel]; [lia|]. cbn [decode_loop].
  rewrite group_width_other by assumption. reflexivity.
Qed.

Lemma load_unknown_namespace_witness :
  load 5 ([x51; x58] ++ x00 :: [x01; x02]) = Raised Exception.
Proof.
  apply (load_unknown_namespace [x51; x58] [x01; x02] 5).
  - intros [H|[H|[]]]; discriminate.
  - discriminate.
  - discriminate.
  - simpl. lia.
Defined.

(** C7.  Every tuple of a list that [load] returns fits the data model:
    the memory flag is 0 or 1, the value is below [2^16] and the opcode
    below [2^8], none of them negative. *)
Theorem load_fits_model (fuel : nat) (file : bytes) (l : list instruction) :
  load fuel file = Returned l ->
  Forall (fun t : instruction =>
            let '(flag, v, op) := t in
            (flag = 0 \/ flag = 1) /\ 0 <= v < 2 ^ 16 /\ 0 <= op < 2 ^ 8) l.
Proof.
  unfold load. destruct (scan_namespace fuel [] file) as [[ns rest]|];
    [|discriminate].
  intros E. apply (decode_loop_fits fuel ns rest [] l); [constructor | exact E].
Qed.

Lemma load_fits_model_witness :
  Forall (fun t : instruction =>
            let '(flag, v, op) := t in
            (flag = 0 \/ flag = 1) /\ 0 <= v < 2 ^ 16 /\ 0 <= op < 2 ^ 8)
    [(1, 300, 7); (0, 65535, 9)].
Proof.
  apply (load_fits_model 11
           [x51; x54; x00; x01; x01; x2c; x07; xfe; xff; xff; x09]).
  reflexivity.
Defined.

(** C9.  On a file with no zero byte the header loop never exits: a read
    at the end of the file gives the empty byte string, which is not the
    terminator, so however many iterations are allowed the loop is still
    running and [load] has neither returned nor raised. *)
Theorem load_without_terminator (file : bytes) :
  ~ In x00 file ->
  read 1 [] = ([], []) /\ bytes_eqb [] NUL = false
  /\ forall fuel,
       (forall namespace, scan_namespace fuel namespace file = None)
       /\ load fuel file = OutOfFuel.
Proof.
  intros Hno. split; [reflexivity|]. split; [reflexivity|].
  intros fuel. split.
  - intros namespace. apply scan_namespace_no_nul. exact Hno.
  - unfold load. rewrite scan_namespace_no_nul by exact Hno. reflexivity.
Qed.

Lemma load_without_terminator_witness :
  ~ In x00 [x51; x54; x01; x01; x2c; x07]
  /\ load 1000 [x51; x54; x01; x01; x2c; x07] = OutOfFuel.
Proof.
  assert (Hno : ~ In x00 [x51; x54; x01; x01; x2c; x07]).
  { intros [H|[H|[H|[H|[H|[H|[]]]]]]]; discriminate. }
  split; [exact Hno|].
  apply (load_without_terminator [x51; x54; x01; x01; x2c; x07] Hno).
Defined.

(** C10.  Two wide groups that agree on the least-significant bit of
    byte 0 and on bytes 1 to 3 (so that they differ at most in bits 1 to
    7 of byte 0) are decoded to the same triple, and [load] gives the
    same outcome on two QT programs that differ only in such a group. *)
Theorem decode_ignores_upper_flag_bits (b0 b0' b1 b2 b3 : byte) :
  Z.testbit (byte_val b0) 0 = Z.testbit (byte_val b0') 0 ->
  decode [b0; b1; b2; b3] = decode [b0'; b1; b2; b3]
  /\ forall (fuel : nat) (before after : bytes),
       (List.length before mod 4 = 0)%nat ->
       load fuel (QT ++ NUL ++ before ++ [b0; b1; b2; b3] ++ after)
       = load fuel (QT ++ NUL ++ before ++ [b0'; b1; b2; b3] ++ after).
Proof.
  intros Hbit.
  assert (Ht : wide_triple b0 b1 b2 b3 = wide_triple b0' b1 b2 b3).
  { unfold wide_triple. rewrite <- !Z.bit0_mod, Hbit. reflexivity. }
  split; [rewrite !decode_wide, Ht; reflexivity|].
  intros fuel before after Hmod.
  assert (Hloop : forall f acc,
    decode_loop f QT (before ++ [b0; b1; b2; b3] ++ after) acc
    = decode_loop f QT (before ++ [b0'; b1; b2; b3] ++ after) acc).
  { clear fuel. revert Hmod.
    induction before as [|a|a b|a b c|a b c d rest IH] using group_ind;
      intros Hmod f acc; try discriminate Hmod.
    - destruct f as [|f]; [reflexivity|]. cbn [app].
      rewrite !decode_loop_wide_step, Ht. reflexivity.
    - destruct f as [|f]; [reflexivity|].
      change ((a :: b :: c :: d :: rest) ++ ?x)
        with (a :: b :: c :: d :: (rest ++ x)).
      rewrite !decode_loop_wide_step. apply IH.
      cbn [List.length] in Hmod.
      replace (S (S (S (S (List.length rest)))))
        with (List.length rest + 1 * 4)%nat in Hmod by lia.
      rewrite Nat.Div0.mod_add in Hmod. exact Hmod. }
  destruct (le_lt_dec 3 fuel) as [H3|H3].
  - rewrite !load_wide by exact H3. apply Hloop.
  - destruct fuel as [|[|[|fuel]]]; try lia; reflexivity.
Qed.

Lemma decode_ignores_upper_flag_bits_witness :
  decode [x01; x01; x2c; x07] = decode [xff; x01; x2c; x07].
Proof.
  apply (decode_ignores_upper_flag_bits x01 xff x01 x2c x07).
  reflexivity.
Defined.

(** * Properties of the dump *)

Module DumpProofs.

Import Dump DumpText.

Local Open Scope nat_scope.

(** ** Runs on a small emulator *)

Example dump_rows_small :
  dump_rows (cache small_emulator)
  = [(0, map N.of_nat (seq 0 16)); (16, [16; 17; 18; 19]%N)].
Proof. reflexivity. Qed.

Example row_text_small :
  row_text 16 [16; 17; 18; 19]%N
  = String.append nl "0016 | 00016 00017 00018 00019".
Proof. reflexivity. Qed.

Example row_text_wide_cell :
  row_text 0 [70000]%N = String.append nl "0000 | 70000".
Proof. reflexivity. Qed.

Example column_header_text :
  column_header
  = "    0     1     2     3     4     5     6     7     8     9    10    11    12    13    14    15 "%string.
Proof. reflexivity. Qed.

Example section_start_text :
  section_start "cache"
  = String.append (repeat_char "=" 41)
      (String.append "[CACHE SECTION START]" (repeat_char "=" 41)).
Proof. reflexivity. Qed.

Example section_end_text :
  section_end "ADDR_STACK"
  = String.append (repeat_char "=" 39)
      (String.append "[ADDR_STACK SECTION END]" (repeat_char "=" 40)).
Proof. reflexivity. Qed.

Example register_line_text :
  register_line "PR" 2 = String.append "PR   = 2" nl.
Proof. reflexivity. Qed.

Example create_memory_dump_small :
  let w := mkWorld small_emulator (fun _ => EmptyString) in
  let w' := snd (create_memory_dump "out" w) in
  emulator w' = small_emulator
  /\ files w' "out.STACK.dmp"%string
     = segment_text "STACK" [1; 2; 3]%N
  /\ files w' "other"%string = EmptyString.
Proof. vm_compute. repeat split. Qed.

(** ** Texts *)

Lemma append_assoc (a b c : string) :
  String.append (String.append a b) c = String.append a (String.append b c).
Proof. induction a as [|x a IH]; simpl; [reflexivity | rewrite IH; reflexivity]. Qed.

Lemma append_nil_r (a : string) : String.append a EmptyString = a.
Proof. induction a as [|x a IH]; simpl; [reflexivity | rewrite IH; reflexivity]. Qed.

Lemma append_inj_l (p a b : string) :
  String.append p a = String.append p b -> a = b.
Proof.
  induction p as [|x p IH]; simpl; intros E; [exact E|].
  injection E as E. apply IH. exact E.
Qed.

Lemma eqb_append_neq (p a b : string) :
  a <> b -> String.eqb (String.append p a) (String.append p b) = false.
Proof.
  intros Hab. apply String.eqb_neq. intros E. apply Hab.
  apply (append_inj_l p). exact E.
Qed.

(** ** Running the monad *)

Lemma bind_run {A B} (m : io A) (k : A -> io B) (w : world) :
  bind m k w = k (fst (m w)) (snd (m w)).
Proof. unfold bind. destruct (m w). reflexivity. Qed.

Section Appending.

Variable file : string.

Lemma appends_refl w : appends file EmptyString w w.
Proof.
  split; [reflexivity|]. intros p.
  destruct (String.eqb_spec p file) as [->|]; [|reflexivity].
  rewrite append_nil_r. reflexivity.
Qed.

Lemma appends_trans t1 t2 w w1 w2 :
  appends file t1 w w1 -> appends file t2 w1 w2 ->
  appends file (String.append t1 t2) w w2.
Proof.
  intros [He1 Hf1] [He2 Hf2]. split; [congruence|].
  intros p. rewrite Hf2. destruct (String.eqb_spec p file) as [->|Hp].
  - rewrite Hf1, String.eqb_refl. apply append_assoc.
  - rewrite Hf1. destruct (String.eqb_spec p file); [contradiction|reflexivity].
Qed.

Lemma appends_write text w :
  appends file text w (snd (write file text w)).
Proof. split; reflexivity. Qed.

(** Sequencing, when the first step adds [t1] and the rest adds [t2]. *)
Lemma appends_bind {A B} t1 t2 (m : io A) (k : A -> io B) w :
  appends file t1 w (snd (m w)) ->
  appends file t2 (snd (m w)) (snd (k (fst (m w)) (snd (m w)))) ->
  appends file (String.append t1 t2) w (snd (bind m k w)).
Proof.
  intros H1 H2. rewrite bind_run. eapply appends_trans; eassumption.
Qed.

(** Reading a register adds nothing. *)
Lemma appends_item {B} (r : register) (k : N -> io B) text w :
  appends file text w (snd (k (register_of (emulator w) r) w)) ->
  appends file text w (snd (bind (item r) k w)).
Proof. intros H. exact H. Qed.

(** A loop whose body writes one text per element. *)
Lemma appends_for {A} (text : world -> A -> string) (body : A -> io unit) :
  (forall x w, appends file (text w x) w (snd (body x w))) ->
  (forall x w w', emulator w' = emulator w -> text w' x = text w x) ->
  forall xs w,
    appends file (concat_text (map (text w) xs)) w (snd (for_ xs body w)).
Proof.
  intros Hbody Htext xs. induction xs as [|x xs IH]; intros w.
  - apply appends_refl.
  - cbn [for_ map concat_text fold_right]. apply appends_bind.
    + apply Hbody.
    + specialize (IH (snd (body x w))).
      rewrite (map_ext (text (snd (body x w))) (text w)) in IH.
      * exact IH.
      * intros y. apply Htext. apply (Hbody x w).
Qed.

End Appending.

(** ** Ranges and lines *)

Lemma slice_row (cells : list N) index :
  firstn (index + offset - index) (skipn index cells)
  = firstn offset (skipn index cells).
Proof. replace (index + offset - index) with offset by lia. reflexivity. Qed.

(** The loop indices and the slices taken at them are the lines of the
    segment from [start] on. *)
Lemma range_rows (cells : list N) :
  forall fuel start,
    map (fun index => (index, firstn offset (skipn index cells)))
        (range_from fuel start (List.length cells) offset)
    = chunks_from fuel start (skipn start cells).
Proof.
  induction fuel as [|fuel IH]; intros start; [reflexivity|].
  cbn [range_from chunks_from].
  destruct (Nat.ltb_spec start (List.length cells)) as [Hlt|Hge].
  - destruct (skipn start cells) as [|c rest] eqn:Es.
    + apply (f_equal (@List.length N)) in Es. rewrite length_skipn in Es.
      simpl in Es. lia.
    + cbn [map]. rewrite IH. rewrite <- Es, skipn_skipn.
      rewrite (Nat.add_comm offset start). reflexivity.
  - rewrite skipn_all2 by exact Hge. reflexivity.
Qed.

Lemma range_dump_rows (cells : list N) :
  map (fun index => (index, firstn offset (skipn index cells)))
      (range 0 (List.length cells) offset)
  = dump_rows cells.
Proof. unfold range, dump_rows. rewrite range_rows. reflexivity. Qed.

(** The lines hold the whole segment, in order. *)
Lemma chunks_from_concat :
  forall fuel index (cells : list N),
    List.length cells <= fuel ->
    List.concat (map snd (chunks_from fuel index cells)) = cells.
Proof.
  induction fuel as [|fuel IH]; intros index cells Hlen.
  - destruct cells; [reflexivity | simpl in Hlen; lia].
  - destruct cells as [|c cells]; [reflexivity|].
    cbn [chunks_from map snd List.concat].
    rewrite IH.
    + apply firstn_skipn.
    + rewrite length_skipn. simpl in *. lia.
Qed.

(** The [k]-th line starts at index [16 * k] and holds the cells from
    there on, sixteen of them or what is left. *)
Lemma chunks_from_nth :
  forall fuel index (cells : list N) k i row,
    nth_error (chunks_from fuel index cells) k = Some (i, row) ->
    i = index + offset * k /\ row = firstn offset (skipn (offset * k) cells).
Proof.
  induction fuel as [|fuel IH]; intros index cells k i row.
  - destruct k; discriminate.
  - destruct cells as [|c cells]; [destruct k; discriminate|].
    cbn [chunks_from]. destruct k as [|k]; cbn [nth_error].
    + intros E. injection E as <- <-. split; [lia | reflexivity].
    + intros E. apply IH in E. destruct E as [-> ->].
      rewrite skipn_skipn. split; [lia|]. f_equal. f_equal. lia.
Qed.

(** ** The emulator is only read *)

Lemma emulator_write file text w :
  emulator (snd (write file text w)) = emulator w.
Proof. reflexivity. Qed.

Lemma emulator_for {A} (body : A -> io unit) :
  (forall x w, emulator (snd (body x w)) = emulator w) ->
  forall xs w, emulator (snd (for_ xs body w)) = emulator w.
Proof.
  intros Hbody xs. induction xs as [|x xs IH]; intros w; [reflexivity|].
  cbn [for_]. rewrite bind_run, IH. apply Hbody.
Qed.

(** ** One section *)

Lemma rows_loop file memory w :
  appends file
    (concat_text (map (fun r => row_text (fst r) (snd r))
                      (dump_rows (segment_of (emulator w) memory))))
    w
    (snd (for_ (range 0 (List.length (segment_of (emulator w) memory)) offset)
            (fun index =>
               cells <- getslice memory index (index + offset) ;;
               write file (row_text index cells)) w)).
Proof.
  rewrite <- range_dump_rows, map_map. cbn [fst snd].
  apply (appends_for file
           (fun w index =>
              row_text index
                (firstn offset (skipn index (segment_of (emulator w) memory))))).
  - intros index w0. rewrite bind_run. cbn [getslice fst snd].
    rewrite slice_row. apply appends_write.
  - intros index w0 w1 He. rewrite He. reflexivity.
Qed.

Lemma _create_memory_dump_appends file memory section_name w :
  appends file (segment_text section_name (segment_of (emulator w) memory))
    w (snd (_create_memory_dump file memory section_name w)).
Proof.
  unfold _create_memory_dump, segment_text.
  apply appends_bind; [apply appends_write|].
  apply appends_bind; [apply appends_write|].
  apply appends_bind.
  { unfold column_header.
    apply (appends_for file
             (fun _ i => String.append
                           (format_space_d number_offset (N.of_nat i)) " ")).
    - intros i w0. apply appends_write.
    - reflexivity. }
  match goal with
  | |- appends _ _ ?w3 _ =>
      assert (He : emulator w3 = emulator w);
      [ rewrite emulator_for by (intros; apply emulator_write); reflexivity
      | rewrite <- He; clear He; generalize w3 ]
  end.
  intros w3.
  rewrite bind_run. cbn [len fst snd].
  apply appends_bind; [apply rows_loop | apply appends_write].
Qed.

(** ** The five files *)

Lemma creates_open path text w w' :
  appends path text (snd (open_w path w)) w' -> creates path text w w'.
Proof.
  intros [He Hf]. split; [exact He|]. intros p. rewrite Hf.
  unfold open_w, set_file. cbn [snd files].
  destruct (String.eqb_spec p path) as [->|Hp]; [|reflexivity].
  rewrite String.eqb_refl. reflexivity.
Qed.

Lemma registers_appends file w :
  appends file (registers_text (emulator w)) w
    (snd ((write file
             (String.append
                (align_center "=" section_size "[REGISTER SECTION START]") nl) ;;
           v <- item ACC ;; write file (register_line "ACC" v) ;;
           v <- item PR ;; write file (register_line "PR" v) ;;
           v <- item PC ;; write file (register_line "PC" v) ;;
           v <- item FR ;; write file (register_line "FR" v) ;;
           v <- item SP ;; write file (register_line "SP" v) ;;
           v <- item ASP ;; write file (register_line "ASP" v) ;;
           write file
             (String.append
                (align_center "=" section_size "[REGISTER SECTION END]") nl))
            w)).
Proof.
  unfold registers_text.
  apply appends_bind; [apply appends_write|].
  do 6 (apply appends_item; apply appends_bind; [apply appends_write|]).
  apply appends_write.
Qed.

(** A [with open(path, "w") as file:] block, then the rest. *)
Lemma with_block_run {B} path (body : string -> io unit) (k : unit -> io B) w :
  bind (open_w path) (fun file => bind (body file) k) w
  = k tt (snd (body path (snd (open_w path w)))).
Proof.
  rewrite bind_run. cbn [open_w fst snd]. rewrite bind_run.
  destruct (fst (body path _)). reflexivity.
Qed.

Lemma creates_section path memory section_name w :
  creates path (segment_text section_name (segment_of (emulator w) memory))
    w (snd (_create_memory_dump path memory section_name (snd (open_w path w)))).
Proof.
  apply creates_open.
  apply (_create_memory_dump_appends path memory section_name
           (snd (open_w path w))).
Qed.

Lemma creates_registers path w :
  creates path (registers_text (emulator w)) w
    (snd ((write path
             (String.append
                (align_center "=" section_size "[REGISTER SECTION START]") nl) ;;
           v <- item ACC ;; write path (register_line "ACC" v) ;;
           v <- item PR ;; write path (register_line "PR" v) ;;
           v <- item PC ;; write path (register_line "PC" v) ;;
           v <- item FR ;; write path (register_line "FR" v) ;;
           v <- item SP ;; write path (register_line "SP" v) ;;
           v <- item ASP ;; write path (register_line "ASP" v) ;;
           write path
             (String.append
                (align_center "=" section_size "[REGISTER SECTION END]") nl))
            (snd (open_w path w)))).
Proof.
  apply creates_open. apply (registers_appends path (snd (open_w path w))).
Qed.

(** The state after [create_memory_dump]: five files created one after
    the other, each from the emulator as it was at the start. *)
Lemma create_memory_dump_run filepath w :
  exists w1 w2 w3 w4,
    creates (String.append filepath ".CACHE.dmp")
      (segment_text "CACHE" (cache (emulator w))) w w1
    /\ creates (String.append filepath ".STACK.dmp")
         (segment_text "STACK" (stack (emulator w))) w1 w2
    /\ creates (String.append filepath ".ADDR_STACK.dmp")
         (segment_text "ADDR_STACK" (address_stack (emulator w))) w2 w3
    /\ creates (String.append filepath ".PORTS.dmp")
         (segment_text "PORTS" (ports (emulator w))) w3 w4
    /\ creates (String.append filepath ".REGISTERS.dmp")
         (registers_text (emulator w)) w4
         (snd (create_memory_dump filepath w)).
Proof.
  unfold create_memory_dump.
  rewrite !with_block_run. rewrite bind_run. cbn [open_w fst].
  pose proof (creates_section (String.append filepath ".CACHE.dmp")
                Cache "CACHE" w) as C1.
  set (w1 := snd (_create_memory_dump _ Cache _ _)) in *.
  pose proof (creates_section (String.append filepath ".STACK.dmp")
                Stack "STACK" w1) as C2.
  set (w2 := snd (_create_memory_dump _ Stack _ _)) in *.
  pose proof (creates_section (String.append filepath ".ADDR_STACK.dmp")
                AddrStack "ADDR_STACK" w2) as C3.
  set (w3 := snd (_create_memory_dump _ AddrStack _ _)) in *.
  pose proof (creates_section (String.append filepath ".PORTS.dmp")
                Ports "PORTS" w3) as C4.
  set (w4 := snd (_create_memory_dump _ Ports _ _)) in *.
  pose proof (creates_registers (String.append filepath ".REGISTERS.dmp") w4)
    as C5.
  assert (E1 : emulator w1 = emulator w) by apply C1.
  assert (E2 : emulator w2 = emulator w) by (rewrite <- E1; apply C2).
  assert (E3 : emulator w3 = emulator w) by (rewrite <- E2; apply C3).
  assert (E4 : emulator w4 = emulator w) by (rewrite <- E3; apply C4).
  rewrite E1 in C2. rewrite E2 in C3. rewrite E3 in C4. rewrite E4 in C5.
  exists w1, w2, w3, w4. repeat split; first
    [ apply C1 | apply C2 | apply C3 | apply C4 | apply C5 ].
Qed.

End DumpProofs.

(** * Further properties of [load] *)

(** ** Helpers *)

Lemma byte_val_inj (a b : byte) : byte_val a = byte_val b -> a = b.
Proof.
  unfold byte_val. intros E. apply N2Z.inj in E.
  assert (H : Byte.of_N (Byte.to_N a) = Byte.of_N (Byte.to_N b))
    by (rewrite E; reflexivity).
  rewrite !Byte.of_to_N in H. injection H as H. exact H.
Qed.

Lemma wide_groups_app (b1 b2 : bytes) :
  trailing b1 = [] ->
  wide_groups (b1 ++ b2) = wide_groups b1 ++ wide_groups b2
  /\ trailing (b1 ++ b2) = trailing b2.
Proof.
  induction b1 as [|a|a b|a b c|a b c d rest IH] using group_ind;
    intros Ht; try discriminate Ht.
  - split; reflexivity.
  - cbn [trailing] in Ht. destruct (IH Ht) as [Hg Hr].
    change ((a :: b :: c :: d :: rest) ++ b2)
      with (a :: b :: c :: d :: (rest ++ b2)).
    cbn [wide_groups trailing]. rewrite Hg, Hr. split; reflexivity.
Qed.

(** The outcome of [load] on a file whose header is closed by a zero
    byte, once the fuel covers the file. *)
Lemma load_outcome_of (header body : bytes) fuel :
  ~ In x00 header ->
  (List.length (header ++ x00 :: body) <= fuel)%nat ->
  load fuel (header ++ x00 :: body) =
  if bytes_eqb header QT then
    match trailing body with
    | [] => Returned (wide_groups body)
    | _ :: _ => Raised IndexError
    end
  else if bytes_eqb header QM then
    match body with
    | [] => Returned []
    | _ :: _ => Raised IndexError
    end
  else Raised Exception.
Proof.
  intros Hno Hfuel. rewrite length_app in Hfuel. cbn [List.length] in Hfuel.
  rewrite load_header by (exact Hno || lia).
  destruct (bytes_eqb header QT) eqn:Eqt.
  - apply bytes_eqb_eq in Eqt. subst header.
    apply (decode_loop_wide body fuel []). lia.
  - destruct (bytes_eqb header QM) eqn:Eqm.
    + apply bytes_eqb_eq in Eqm. subst header.
      destruct fuel as [|fuel]; [lia|]. destruct body as [|b body].
      * reflexivity.
      * apply decode_loop_narrow. discriminate.
    + destruct fuel as [|fuel]; [lia|]. cbn [decode_loop].
      unfold group_width. rewrite Eqt, Eqm. reflexivity.
Qed.

(** ** Termination *)



(** ** The outcome, case by case *)

(** X2.  On a file whose header is closed by a zero byte, with fuel for
    the whole file, the outcome of [load] is settled by the header and
    the length of the body: under QT, the triples of the groups when the
    body is a whole number of four-byte groups and IndexError otherwise;
    under QM, the empty list for the empty body and IndexError otherwise;
    under any other header, Exception. *)
Theorem load_outcome (header body : bytes) (fuel : nat) :
  ~ In x00 header ->
  (List.length (header ++ x00 :: body) <= fuel)%nat ->
  (header = QT -> (List.length body mod 4 = 0)%nat ->
     load fuel (header ++ x00 :: body) = Returned (wide_groups body)
     /\ (4 * List.length (wide_groups body) = List.length body)%nat)
  /\ (header = QT -> (List.length body mod 4 <> 0)%nat ->
        load fuel (header ++ x00 :: body) = Raised IndexError)
  /\ (header = QM -> body = [] ->
        load fuel (header ++ x00 :: body) = Returned [])
  /\ (header = QM -> body <> [] ->
        load fuel (header ++ x00 :: body) = Raised IndexError)
  /\ (header <> QT -> header <> QM ->
        load fuel (header ++ x00 :: body) = Raised Exception).
Proof.
  intros Hno Hfuel. rewrite (load_outcome_of header body fuel Hno Hfuel).
  split; [|split; [|split; [|split]]].
  - intros -> Hmod. apply trailing_nil_iff in Hmod.
    destruct (wide_groups_length body) as [Hl _].
    rewrite Hmod in *. cbn [bytes_eqb] in *. simpl in Hl.
    split; [reflexivity | lia].
  - intros -> Hmod. simpl. destruct (trailing body) eqn:Et; [|reflexivity].
    apply trailing_nil_iff in Et. contradiction.
  - intros -> ->. reflexivity.
  - intros -> Hb. destruct body; [contradiction | reflexivity].
  - intros Hqt Hqm.
    rewrite (bytes_eqb_neq _ _ Hqt), (bytes_eqb_neq _ _ Hqm). reflexivity.
Qed.

Lemma load_outcome_witness :
  load 9 ([x51; x54] ++ x00 :: [x01; x01; x2c; x07; xfe]) = Raised IndexError.
Proof.
  assert (Hno : ~ In x00 [x51; x54])
    by (intros [H|[H|[]]]; discriminate).
  assert (Hlen : (List.length ([x51; x54] ++ x00 :: [x01; x01; x2c; x07; xfe])
                  <= 9)%nat) by (simpl; lia).
  apply (proj1 (proj2 (load_outcome [x51; x54] [x01; x01; x2c; x07; xfe] 9
                         Hno Hlen))).
  - reflexivity.
  - simpl. discriminate.
Defined.

(** X3.  [load] returns a list, for some number of loop turns, exactly
    when the file is the header QT, a zero byte and a whole number of
    four-byte groups, the list being the triples of these groups in
    order, or the header QM and a zero byte with nothing after, the list
    being empty. *)
Theorem load_returns_iff (file : bytes) (l : list instruction) :
  (exists fuel, load fuel file = Returned l)
  <-> ((exists body, file = QT ++ NUL ++ body
                     /\ (List.length body mod 4 = 0)%nat
                     /\ l = wide_groups body)
       \/ (file = QM ++ NUL /\ l = [])).
Proof.
  split.
  - intros [fuel Hl]. apply load_returned in Hl.
    destruct Hl as (header & body & -> & [(-> & -> & Ht) | (-> & -> & ->)]).
    + left. exists body. apply trailing_nil_iff in Ht. repeat split. exact Ht.
    + right. split; reflexivity.
  - intros [(body & -> & Hmod & ->) | [-> ->]].
    + exists (List.length (QT ++ NUL ++ body)).
      rewrite load_wide by (simpl; lia).
      rewrite (decode_loop_wide body _ []) by (simpl; lia).
      apply trailing_nil_iff in Hmod. rewrite Hmod. reflexivity.
    + exists 3%nat. reflexivity.
Qed.

(** X4.  Every byte of a file that loads is accounted for: two header
    bytes, the terminator and four bytes for each instruction returned. *)
Theorem load_returned_size (fuel : nat) (file : bytes) (l : list instruction) :
  load fuel file = Returned l ->
  List.length file = (3 + 4 * List.length l)%nat.
Proof.
  intros Hl. apply load_returned in Hl.
  destruct Hl as (header & body & -> & [(-> & -> & Ht) | (-> & -> & ->)]).
  - destruct (wide_groups_length body) as [Hlen _]. rewrite Ht in Hlen.
    rewrite length_app. unfold QT. cbn [List.length] in *. lia.
  - reflexivity.
Qed.

Lemma load_returned_size_witness :
  List.length [x51; x54; x00; x01; x01; x2c; x07; xfe; xff; xff; x09]
  = Nat.add 3 (Nat.mul 4 (List.length [(1, 300, 7); (0, 65535, 9)])).
Proof.
  apply (load_returned_size 11
           [x51; x54; x00; x01; x01; x2c; x07; xfe; xff; xff; x09]).
  reflexivity.
Defined.

(** ** Joining programs *)

(** X5.  Two QT programs are joined by putting the body of the second
    after the body of the first.  When the first loads, the joined file
    loads to the two lists one after the other if the second loads, and
    raises what the second raises if it does not. *)
Theorem load_concat (b1 b2 : bytes) (fuel : nat) (l1 : list instruction) :
  (List.length (QT ++ NUL ++ b1 ++ b2) <= fuel)%nat ->
  load fuel (QT ++ NUL ++ b1) = Returned l1 ->
  (forall l2, load fuel (QT ++ NUL ++ b2) = Returned l2 ->
              load fuel (QT ++ NUL ++ b1 ++ b2) = Returned (l1 ++ l2))
  /\ (forall e, load fuel (QT ++ NUL ++ b2) = Raised e ->
                load fuel (QT ++ NUL ++ b1 ++ b2) = Raised e).
Proof.
  intros Hfuel H1. rewrite !length_app in Hfuel. simpl in Hfuel.
  change (QT ++ NUL ++ b1) with (QT ++ x00 :: b1) in H1.
  rewrite (load_outcome_of QT b1 fuel QT_no_nul) in H1
    by (rewrite length_app; simpl; lia).
  cbn [bytes_eqb QT byte_eqb Byte.eqb andb] in H1. simpl bytes_eqb in H1.
  destruct (trailing b1) eqn:Et; [|discriminate].
  injection H1 as H1. subst l1.
  destruct (wide_groups_app b1 b2 Et) as [Hg Hr].
  assert (Hw : load fuel (QT ++ NUL ++ b1 ++ b2) =
               match trailing b2 with
               | [] => Returned (wide_groups b1 ++ wide_groups b2)
               | _ :: _ => Raised IndexError
               end).
  { change (QT ++ NUL ++ b1 ++ b2) with (QT ++ x00 :: (b1 ++ b2)).
    rewrite (load_outcome_of QT (b1 ++ b2) fuel QT_no_nul)
      by (rewrite length_app; simpl; rewrite length_app; lia).
    simpl bytes_eqb. rewrite Hg, Hr. reflexivity. }
  assert (H2 : load fuel (QT ++ NUL ++ b2) =
               match trailing b2 with
               | [] => Returned (wide_groups b2)
               | _ :: _ => Raised IndexError
               end).
  { change (QT ++ NUL ++ b2) with (QT ++ x00 :: b2).
    rewrite (load_outcome_of QT b2 fuel QT_no_nul)
      by (rewrite length_app; simpl; lia).
    reflexivity. }
  rewrite Hw, H2. destruct (trailing b2); split; intros x Hx; congruence.
Qed.

Lemma load_concat_witness :
  load 11 (QT ++ NUL ++ [x01; x01; x2c; x07] ++ [xfe; xff; xff; x09])
  = Returned ([(1, 300, 7)] ++ [(0, 65535, 9)]).
Proof.
  assert (Hlen : (List.length (QT ++ NUL ++ [x01; x01; x2c; x07]
                                ++ [xfe; xff; xff; x09]) <= 11)%nat)
    by (simpl; lia).
  assert (H1 : load 11 (QT ++ NUL ++ [x01; x01; x2c; x07])
               = Returned [(1, 300, 7)]) by reflexivity.
  apply (proj1 (load_concat [x01; x01; x2c; x07] [xfe; xff; xff; x09] 11
                  [(1, 300, 7)] Hlen H1)).
  reflexivity.
Defined.

(** ** What a group keeps *)

(** X6.  Two four-byte groups are decoded to the same triple exactly
    when they agree on the least-significant bit of byte 0 and on bytes
    1, 2 and 3: decoding drops the seven upper bits of byte 0 and nothing
    else. *)
Theorem decode_eq_iff (b0 b1 b2 b3 c0 c1 c2 c3 : byte) :
  decode [b0; b1; b2; b3] = decode [c0; c1; c2; c3]
  <-> Z.testbit (byte_val b0) 0 = Z.testbit (byte_val c0) 0
      /\ b1 = c1 /\ b2 = c2 /\ b3 = c3.
Proof.
  rewrite !decode_wide. unfold wide_triple. rewrite <- !Z.bit0_mod.
  split.
  - intros E. injection E as Ef Ev Eo.
    pose proof (byte_val_range b1). pose proof (byte_val_range b2).
    pose proof (byte_val_range c1). pose proof (byte_val_range c2).
    assert (E1 : byte_val b1 = byte_val c1) by lia.
    assert (E2 : byte_val b2 = byte_val c2) by lia.
    repeat split.
    + rewrite !Z.bit0_odd in *.
      destruct (Z.odd (byte_val b0)), (Z.odd (byte_val c0));
        simpl in Ef; (reflexivity || discriminate Ef).
    + apply byte_val_inj. exact E1.
    + apply byte_val_inj. exact E2.
    + apply byte_val_inj. exact Eo.
  - intros (Ef & -> & -> & ->). rewrite Ef. reflexivity.
Qed.

(** ** What [load] can return *)

Lemma wide_group_of_tuple (t : instruction) :
  fits_model t ->
  exists b0 b1 b2 b3, wide_triple b0 b1 b2 b3 = t.
Proof.
  destruct t as [[flag v] op]. intros (Hf & Hv & Ho).
  pose proof (decode_encode_wide 0 (mkInstruction (Z.eqb flag 1) v op) Hv Ho)
    as Hd.
  unfold encode_wide in Hd. rewrite decode_wide in Hd.
  match type of Hd with
  | Returned (wide_triple ?a ?b ?c ?d) = Returned ?t =>
      exists a, b, c, d;
      assert (Ht : wide_triple a b c d = t) by congruence;
      rewrite Ht
  end.
  unfold to_tuple. simpl. destruct Hf as [-> | ->]; reflexivity.
Qed.

Lemma wide_groups_onto (l : list instruction) :
  Forall fits_model l ->
  exists body : bytes, wide_groups body = l /\ trailing body = [].
Proof.
  induction 1 as [|t l Ht _ IH].
  - exists []. split; reflexivity.
  - destruct IH as (body & Hg & Hr).
    destruct (wide_group_of_tuple t Ht) as (b0 & b1 & b2 & b3 & E).
    exists (b0 :: b1 :: b2 :: b3 :: body). cbn [wide_groups trailing].
    rewrite E, Hg. split; [reflexivity | exact Hr].
Qed.

(** X7.  Every list of tuples that fit the data model (flag 0 or 1,
    value below [2^16], opcode below [2^8]) is returned by [load] on some
    QT file; with C7, the lists that [load] can return are exactly
    these. *)
Theorem load_onto (l : list instruction) :
  Forall (fun t : instruction =>
            let '(flag, v, op) := t in
            (flag = 0 \/ flag = 1) /\ 0 <= v < 2 ^ 16 /\ 0 <= op < 2 ^ 8) l ->
  exists body : bytes,
    List.length body = (4 * List.length l)%nat
    /\ load (List.length (QT ++ NUL ++ body)) (QT ++ NUL ++ body) = Returned l.
Proof.
  intros Hl. destruct (wide_groups_onto l Hl) as (body & Hg & Hr).
  exists body. split.
  - destruct (wide_groups_length body) as [Hlen _].
    rewrite Hr, Hg in Hlen. simpl in Hlen. lia.
  - rewrite load_wide by (simpl; lia).
    rewrite (decode_loop_wide body _ []) by (simpl; lia).
    rewrite Hr, Hg. reflexivity.
Qed.

Lemma load_onto_witness :
  exists body : bytes,
    List.length body = Nat.mul 4 (List.length [(1, 300, 7); (0, 65535, 9)])
    /\ load (List.length (QT ++ NUL ++ body)) (QT ++ NUL ++ body)
       = Returned [(1, 300, 7); (0, 65535, 9)].
Proof.
  apply (load_onto [(1, 300, 7); (0, 65535, 9)]).
  repeat constructor; simpl; lia.
Defined.

(** * Further properties of the dump *)

Module DumpFacts.

Import Dump DumpText DumpProofs.

Local Open Scope nat_scope.

(** ** Files *)

(** The five files after [create_memory_dump], and the others. *)
Lemma create_memory_dump_files filepath w p :
  files (snd (create_memory_dump filepath w)) p =
  if String.eqb p (String.append filepath ".REGISTERS.dmp")
  then registers_text (emulator w)
  else if String.eqb p (String.append filepath ".PORTS.dmp")
  then segment_text "PORTS" (ports (emulator w))
  else if String.eqb p (String.append filepath ".ADDR_STACK.dmp")
  then segment_text "ADDR_STACK" (address_stack (emulator w))
  else if String.eqb p (String.append filepath ".STACK.dmp")
  then segment_text "STACK" (stack (emulator w))
  else if String.eqb p (String.append filepath ".CACHE.dmp")
  then segment_text "CACHE" (cache (emulator w))
  else files w p.
Proof.
  destruct (create_memory_dump_run filepath w)
    as (w1 & w2 & w3 & w4 & [_ F1] & [_ F2] & [_ F3] & [_ F4] & [_ F5]).
  rewrite F5, F4, F3, F2, F1. reflexivity.
Qed.

Lemma create_memory_dump_emulator filepath w :
  emulator (snd (create_memory_dump filepath w)) = emulator w.
Proof.
  destruct (create_memory_dump_run filepath w)
    as (w1 & w2 & w3 & w4 & [E1 _] & [E2 _] & [E3 _] & [E4 _] & [E5 _]).
  congruence.
Qed.

(** X8.  [create_memory_dump] writes its five files and no other: a
    file at any other path holds what it held. *)
Theorem create_memory_dump_other_files (filepath p : string) (w : world) :
  p <> String.append filepath ".CACHE.dmp" ->
  p <> String.append filepath ".STACK.dmp" ->
  p <> String.append filepath ".ADDR_STACK.dmp" ->
  p <> String.append filepath ".PORTS.dmp" ->
  p <> String.append filepath ".REGISTERS.dmp" ->
  files (snd (create_memory_dump filepath w)) p = files w p.
Proof.
  intros H1 H2 H3 H4 H5. rewrite create_memory_dump_files.
  apply String.eqb_neq in H1, H2, H3, H4, H5.
  rewrite H1, H2, H3, H4, H5. reflexivity.
Qed.

Lemma create_memory_dump_other_files_witness :
  files (snd (create_memory_dump "out"
                (mkWorld small_emulator (fun _ => "kept"%string))))
    "out.CACHE.dmp.old"%string
  = "kept"%string.
Proof.
  apply (create_memory_dump_other_files "out" "out.CACHE.dmp.old"
           (mkWorld small_emulator (fun _ => "kept"%string)));
    discriminate.
Defined.

(** X9.  Dumping twice in a row is dumping once: the second run finds
    the emulator as it was and writes the same five texts over the
    first ones. *)
Theorem create_memory_dump_twice (filepath : string) (w : world) :
  let w1 := snd (create_memory_dump filepath w) in
  let w2 := snd (create_memory_dump filepath w1) in
  emulator w2 = emulator w1 /\ forall p, files w2 p = files w1 p.
Proof.
  intros w1 w2. split; [apply create_memory_dump_emulator|].
  intros p. unfold w2. rewrite create_memory_dump_files.
  unfold w1 at 1 2 3 4 5. rewrite create_memory_dump_emulator.
  unfold w1. rewrite create_memory_dump_files.
  repeat match goal with
         | |- context [String.eqb p ?q] => destruct (String.eqb p q)
         end; reflexivity.
Qed.

(** X10.  Two sections written one after the other through one
    freshly opened file, with ASCII names: the file holds the first
    section and then the second, no other file is changed and the
    emulator is as it was. *)
Theorem create_section_twice (path : string) (m1 m2 : segment)
    (name1 name2 : string) (w : world) :
  TextShape.all_chars TextShape.is_ascii name1 = true ->
  TextShape.all_chars TextShape.is_ascii name2 = true ->
  let w' := snd ((file <- open_w path ;;
                  _create_memory_dump file m1 name1 ;;
                  _create_memory_dump file m2 name2) w) in
  emulator w' = emulator w
  /\ files w' path
     = String.append (segment_text name1 (segment_of (emulator w) m1))
                     (segment_text name2 (segment_of (emulator w) m2))
  /\ forall p, p <> path -> files w' p = files w p.
Proof.
  intros _ _ w'.
  assert (H : creates path
                (String.append
                   (segment_text name1 (segment_of (emulator w) m1))
                   (segment_text name2 (segment_of (emulator w) m2)))
                w w').
  { apply creates_open. unfold w'. rewrite bind_run. cbn [open_w fst].
    apply appends_bind.
    - apply (_create_memory_dump_appends path m1 name1 (snd (open_w path w))).
    - pose proof (_create_memory_dump_appends path m1 name1
                    (snd (open_w path w))) as [He _].
      change (emulator w) with (emulator (snd (open_w path w))).
      rewrite <- He. apply _create_memory_dump_appends. }
  destruct H as [He Hf]. split; [exact He|]. split.
  - rewrite Hf, String.eqb_refl. reflexivity.
  - intros p Hp. rewrite Hf. apply String.eqb_neq in Hp. rewrite Hp.
    reflexivity.
Qed.

Lemma create_section_twice_witness :
  files (snd ((file <- open_w "out" ;;
               _create_memory_dump file Stack "stack" ;;
               _create_memory_dump file Ports "ports")
              (mkWorld small_emulator (fun _ => "old text"%string))))
    "out"%string
  = String.append (segment_text "stack" [1; 2; 3]%N)
                  (segment_text "ports" [70000]%N).
Proof.
  apply (create_section_twice "out" Stack Ports "stack" "ports"
           (mkWorld small_emulator (fun _ => "old text"%string)));
    reflexivity.
Defined.

End DumpFacts.

(** * Reading a dump back *)

Module DumpLossless.

Import Dump DumpText DumpProofs DumpFacts TextShape.

Local Open Scope nat_scope.

(** ** Texts cut at the first character of another kind *)

Lemma length_append (a b : string) :
  String.length (String.append a b) = String.length a + String.length b.
Proof. induction a as [|c a IH]; simpl; [reflexivity | rewrite IH; reflexivity]. Qed.

Lemma append_inj_r (a b c : string) :
  String.append a c = String.append b c -> a = b.
Proof.
  intros E.
  assert (Hlen : String.length a = String.length b).
  { apply (f_equal String.length) in E. rewrite !length_append in E. lia. }
  revert b E Hlen. induction a as [|x a IH]; intros [|y b] E Hlen;
    try discriminate Hlen; [reflexivity|].
  simpl in E, Hlen. injection E as -> E. f_equal. apply IH; [exact E | lia].
Qed.

Lemma all_chars_app ok (a b : string) :
  all_chars ok (String.append a b) = all_chars ok a && all_chars ok b.
Proof.
  induction a as [|c a IH]; simpl; [reflexivity|].
  rewrite IH, andb_assoc. reflexivity.
Qed.

Lemma all_chars_weaken (ok ok' : ascii -> bool) (s : string) :
  (forall c, ok c = true -> ok' c = true) ->
  all_chars ok s = true -> all_chars ok' s = true.
Proof.
  intros Hw. induction s as [|c s IH]; simpl; [reflexivity|].
  rewrite !andb_true_iff. intros [Hc Hs]. split; [apply Hw, Hc | apply IH, Hs].
Qed.

(** Two texts of one kind, each followed by a text that is empty or
    starts with a character of another kind: equal wholes have equal
    parts. *)
Lemma split_at_stop ok (a b x y : string) :
  all_chars ok a = true -> all_chars ok b = true ->
  stops ok x -> stops ok y ->
  String.append a x = String.append b y -> a = b /\ x = y.
Proof.
  revert b. induction a as [|c a IH]; intros [|d b] Ha Hb Hx Hy E;
    simpl in *.
  - split; [reflexivity | exact E].
  - subst x. simpl in Hx. apply andb_true_iff in Hb. destruct Hb as [Hd _].
    congruence.
  - subst y. simpl in Hy. apply andb_true_iff in Ha. destruct Ha as [Hc _].
    congruence.
  - apply andb_true_iff in Ha, Hb. destruct Ha as [_ Ha], Hb as [_ Hb].
    injection E as -> E. destruct (IH b Ha Hb Hx Hy E) as [-> ->].
    split; reflexivity.
Qed.

Lemma digit_not_newline (c : ascii) :
  is_digit c = true -> not_newline c = true.
Proof.
  unfold not_newline. destruct (Ascii.eqb_spec c (ascii_of_nat 10)) as [->|];
    [discriminate | reflexivity].
Qed.

(** ** Numbers *)

Lemma string_of_uint_digits (d : Decimal.uint) :
  all_chars is_digit (DecimalString.NilEmpty.string_of_uint d) = true.
Proof. induction d; simpl; auto. Qed.

Lemma str_digits (n : N) : all_chars is_digit (str n) = true.
Proof. apply string_of_uint_digits. Qed.

Lemma repeat_char_all ok (c : ascii) (k : nat) :
  ok c = true -> all_chars ok (repeat_char c k) = true.
Proof. intros Hc. induction k; simpl; [reflexivity | rewrite Hc, IHk; reflexivity]. Qed.

Lemma format_zero_d_digits (width : nat) (n : N) :
  all_chars is_digit (format_zero_d width n) = true.
Proof.
  unfold format_zero_d, align_right. rewrite all_chars_app, str_digits.
  rewrite repeat_char_all by reflexivity. reflexivity.
Qed.

(** Reading a padded number back, as a decimal numeral. *)
Lemma uint_of_padded (k : nat) (s : string) (d : Decimal.uint) :
  DecimalString.NilEmpty.uint_of_string s = Some d ->
  DecimalString.NilEmpty.uint_of_string (String.append (repeat_char "0" k) s)
  = Some (Nat.iter k Decimal.D0 d).
Proof.
  intros Hs. induction k as [|k IH]; [exact Hs|].
  cbn [repeat_char String.append DecimalString.NilEmpty.uint_of_string].
  rewrite IH. reflexivity.
Qed.

Lemma of_uint_padded (k : nat) (d : Decimal.uint) :
  N.of_uint (Nat.iter k Decimal.D0 d) = N.of_uint d.
Proof. induction k as [|k IH]; [reflexivity | exact IH]. Qed.

Lemma format_zero_d_read (width : nat) (n : N) :
  option_map N.of_uint
    (DecimalString.NilEmpty.uint_of_string (format_zero_d width n))
  = Some n.
Proof.
  unfold format_zero_d, align_right, str.
  rewrite (uint_of_padded _ _ (N.to_uint n))
    by apply DecimalString.NilEmpty.usu.
  cbn [option_map]. rewrite of_uint_padded, DecimalN.Unsigned.of_to.
  reflexivity.
Qed.

Lemma format_zero_d_inj (w w' : nat) (n m : N) :
  format_zero_d w n = format_zero_d w' m -> n = m.
Proof.
  intros E. pose proof (format_zero_d_read w n) as Hn.
  rewrite E, format_zero_d_read in Hn. congruence.
Qed.

Lemma str_inj (n m : N) : str n = str m -> n = m.
Proof.
  intros E. apply (format_zero_d_inj 0 0). unfold format_zero_d, align_right.
  rewrite E. reflexivity.
Qed.

Lemma format_zero_d_nonempty (n : N) :
  format_zero_d number_offset n <> EmptyString.
Proof.
  intros E. apply (f_equal String.length) in E.
  unfold format_zero_d, align_right in E. rewrite length_append in E.
  assert (Hr : forall c k, String.length (repeat_char c k) = k)
    by (intros c k; induction k; simpl; congruence).
  rewrite Hr in E. unfold number_offset in E.
  change (String.length EmptyString) with 0 in E. lia.
Qed.

(** ** One line of cells *)

(** What follows the first part of a joined text. *)
Lemma join_cons (sep p : string) (ps : list string) :
  join sep (p :: ps)
  = String.append p
      match ps with
      | [] => EmptyString
      | _ :: _ => String.append sep (join sep ps)
      end.
Proof. destruct ps; simpl; [rewrite append_nil_r|]; reflexivity. Qed.

Lemma join_digits_inj (ps qs : list string) :
  Forall (fun p => all_chars is_digit p = true /\ p <> EmptyString) ps ->
  Forall (fun p => all_chars is_digit p = true /\ p <> EmptyString) qs ->
  join " " ps = join " " qs ->
  ps = qs.
Proof.
  intros Hps. revert qs.
  induction Hps as [|p ps [Hp Hpn] Hps IH]; intros qs Hqs E.
  - destruct Hqs as [|q qs [Hq Hqn] Hqs]; [reflexivity|].
    rewrite join_cons in E. destruct q; [contradiction | discriminate E].
  - destruct Hqs as [|q qs [Hq Hqn] Hqs].
    { rewrite join_cons in E. destruct p; [contradiction | discriminate E]. }
    rewrite !join_cons in E.
    apply split_at_stop with (ok := is_digit) in E; try assumption.
    + destruct E as [-> E]. f_equal.
      destruct ps as [|p' ps], qs as [|q' qs]; try discriminate E;
        [reflexivity|].
      apply append_inj_l in E. apply IH; [exact Hqs | exact E].
    + destruct ps; simpl; [exact I | reflexivity].
    + destruct qs; simpl; [exact I | reflexivity].
Qed.

Lemma join_all ok (sep : string) (ps : list string) :
  all_chars ok sep = true ->
  Forall (fun p => all_chars ok p = true) ps ->
  all_chars ok (join sep ps) = true.
Proof.
  intros Hsep Hps. induction Hps as [|p ps Hp Hps IH]; [reflexivity|].
  rewrite join_cons, all_chars_app, Hp. destruct ps; [reflexivity|].
  rewrite all_chars_app, Hsep, IH. reflexivity.
Qed.

Lemma cells_digits (cells : list N) :
  Forall (fun p => all_chars is_digit p = true /\ p <> EmptyString)
    (map (format_zero_d number_offset) cells).
Proof.
  apply Forall_forall. intros p Hp. apply in_map_iff in Hp.
  destruct Hp as (n & <- & _).
  split; [apply format_zero_d_digits | apply format_zero_d_nonempty].
Qed.

Lemma map_format_inj (xs ys : list N) :
  map (format_zero_d number_offset) xs = map (format_zero_d number_offset) ys ->
  xs = ys.
Proof.
  revert ys. induction xs as [|x xs IH]; intros [|y ys] E; try discriminate E;
    [reflexivity|].
  simpl in E. injection E as Ex E. apply format_zero_d_inj in Ex.
  subst y. f_equal. apply IH. exact E.
Qed.

(** A line without its line break is made of digits, spaces and a bar. *)
Lemma row_text_shape (index : nat) (cells : list N) :
  exists body,
    row_text index cells = String.append nl body
    /\ all_chars not_newline body = true.
Proof.
  unfold row_text. eexists. split; [reflexivity|].
  rewrite !all_chars_app.
  rewrite (all_chars_weaken is_digit not_newline _ digit_not_newline
             (format_zero_d_digits _ _)).
  rewrite join_all; [reflexivity | reflexivity |].
  eapply Forall_impl; [|apply cells_digits].
  intros p [Hp _]. apply (all_chars_weaken is_digit); [|exact Hp].
  apply digit_not_newline.
Qed.

(** A line tells its index and its cells. *)
Lemma row_text_inj (i j : nat) (xs ys : list N) :
  row_text i xs = row_text j ys -> i = j /\ xs = ys.
Proof.
  unfold row_text. intros E. apply append_inj_l in E.
  apply split_at_stop with (ok := is_digit) in E;
    try apply format_zero_d_digits; try reflexivity.
  destruct E as [Ei E]. apply format_zero_d_inj in Ei.
  apply Nat2N.inj in Ei. apply append_inj_l in E.
  apply join_digits_inj in E; try apply cells_digits.
  apply map_format_inj in E. split; assumption.
Qed.

(** The lines one after the other tell each line. *)
Lemma rows_text_inj (rows rows' : list (nat * list N)) :
  concat_text (map (fun r => row_text (fst r) (snd r)) rows)
  = concat_text (map (fun r => row_text (fst r) (snd r)) rows') ->
  rows = rows'.
Proof.
  assert (Hstop : forall rs : list (nat * list N),
            stops not_newline
              (concat_text (map (fun r => row_text (fst r) (snd r)) rs))).
  { intros [|r rs]; [exact I|]. reflexivity. }
  revert rows'. induction rows as [|r rows IH]; intros [|r' rows'] E.
  - reflexivity.
  - discriminate E.
  - discriminate E.
  - cbn [map concat_text fold_right] in E.
    destruct (row_text_shape (fst r) (snd r)) as (b & Hb & Hbn).
    destruct (row_text_shape (fst r') (snd r')) as (b' & Hb' & Hbn').
    assert (E' := E). rewrite Hb, Hb', !append_assoc in E'.
    apply append_inj_l in E'.
    apply split_at_stop with (ok := not_newline) in E';
      try assumption; try apply Hstop.
    destruct E' as [Eb Er].
    assert (Erow : row_text (fst r) (snd r) = row_text (fst r') (snd r'))
      by (rewrite Hb, Hb', Eb; reflexivity).
    apply row_text_inj in Erow. destruct Erow as [E1 E2].
    f_equal.
    + destruct r, r'; simpl in *; congruence.
    + apply IH. exact Er.
Qed.

(** ** One section and the register file *)

(** The text of a section tells the cells. *)
Lemma segment_text_inj (name : string) (xs ys : list N) :
  segment_text name xs = segment_text name ys -> xs = ys.
Proof.
  unfold segment_text. intros E.
  do 3 apply append_inj_l in E. apply append_inj_r in E.
  apply rows_text_inj in E.
  rewrite <- (chunks_from_concat (List.length xs) 0 xs (Nat.le_refl _)).
  rewrite <- (chunks_from_concat (List.length ys) 0 ys (Nat.le_refl _)).
  fold (dump_rows xs). fold (dump_rows ys). rewrite E. reflexivity.
Qed.

(** A register line, then more text: the value and the rest. *)
Lemma register_line_inj (name : string) (v v' : N) (rest rest' : string) :
  String.append (register_line name v) rest
  = String.append (register_line name v') rest' ->
  v = v' /\ rest = rest'.
Proof.
  unfold register_line. rewrite !append_assoc. intros E.
  do 2 apply append_inj_l in E.
  apply split_at_stop with (ok := is_digit) in E;
    try apply str_digits; try reflexivity.
  destruct E as [Ev E]. apply str_inj in Ev. apply append_inj_l in E.
  split; assumption.
Qed.

Lemma registers_text_inj (e e' : QTEmulator) :
  registers_text e = registers_text e' ->
  forall r, register_of e r = register_of e' r.
Proof.
  unfold registers_text. intros E. apply append_inj_l in E.
  apply register_line_inj in E. destruct E as [E1 E].
  apply register_line_inj in E. destruct E as [E2 E].
  apply register_line_inj in E. destruct E as [E3 E].
  apply register_line_inj in E. destruct E as [E4 E].
  apply register_line_inj in E. destruct E as [E5 E].
  apply register_line_inj in E. destruct E as [E6 _].
  intros []; assumption.
Qed.

(** X11.  The dump loses nothing.  When [create_memory_dump] writes the
    same five files for two emulators, the two emulators are equal: the
    four segments cell for cell, and the six registers. *)
Theorem create_memory_dump_lossless (filepath : string) (w w' : world) :
  (forall suffix,
     In suffix [".CACHE.dmp"; ".STACK.dmp"; ".ADDR_STACK.dmp"; ".PORTS.dmp";
                ".REGISTERS.dmp"]%string ->
     files (snd (create_memory_dump filepath w)) (String.append filepath suffix)
     = files (snd (create_memory_dump filepath w'))
         (String.append filepath suffix)) ->
  emulator w = emulator w'.
Proof.
  intros H.
  assert (Hfile : forall suffix,
            In suffix [".CACHE.dmp"; ".STACK.dmp"; ".ADDR_STACK.dmp";
                       ".PORTS.dmp"; ".REGISTERS.dmp"]%string ->
            forall w0, files (snd (create_memory_dump filepath w0))
                         (String.append filepath suffix)
            = if String.eqb suffix ".REGISTERS.dmp"
              then registers_text (emulator w0)
              else if String.eqb suffix ".PORTS.dmp"
              then segment_text "PORTS" (ports (emulator w0))
              else if String.eqb suffix ".ADDR_STACK.dmp"
              then segment_text "ADDR_STACK" (address_stack (emulator w0))
              else if String.eqb suffix ".STACK.dmp"
              then segment_text "STACK" (stack (emulator w0))
              else segment_text "CACHE" (cache (emulator w0))).
  { intros suffix Hin w0. rewrite create_memory_dump_files.
    destruct Hin as [<-|[<-|[<-|[<-|[<-|[]]]]]];
      repeat first
        [ rewrite String.eqb_refl; reflexivity
        | rewrite eqb_append_neq by discriminate ]. }
  assert (Hc := H ".CACHE.dmp"%string ltac:(simpl; tauto)).
  assert (Hs := H ".STACK.dmp"%string ltac:(simpl; tauto)).
  assert (Ha := H ".ADDR_STACK.dmp"%string ltac:(simpl; tauto)).
  assert (Hp := H ".PORTS.dmp"%string ltac:(simpl; tauto)).
  assert (Hr := H ".REGISTERS.dmp"%string ltac:(simpl; tauto)).
  rewrite !Hfile in Hc, Hs, Ha, Hp, Hr by (simpl; tauto).
  simpl (String.eqb _ _) in Hc, Hs, Ha, Hp, Hr. cbv iota in Hc, Hs, Ha, Hp, Hr.
  apply segment_text_inj in Hc, Hs, Ha, Hp.
  pose proof (registers_text_inj _ _ Hr) as Hreg.
  pose proof (Hreg ACC) as R1. pose proof (Hreg PR) as R2.
  pose proof (Hreg PC) as R3. pose proof (Hreg FR) as R4.
  pose proof (Hreg SP) as R5. pose proof (Hreg ASP) as R6.
  destruct (emulator w), (emulator w'). simpl in *. congruence.
Qed.

Lemma create_memory_dump_lossless_witness :
  emulator (mkWorld small_emulator (fun _ => "old text"%string))
  = emulator (mkWorld small_emulator (fun _ => EmptyString)).
Proof.
  apply (create_memory_dump_lossless "out").
  intros suffix Hin.
  destruct Hin as [<-|[<-|[<-|[<-|[<-|[]]]]]]; vm_compute; reflexivity.
Defined.

End DumpLossless.

(** * The width of the lines of a dump *)

Module DumpWidth.

Import Dump DumpText DumpProofs DumpLossless.

Local Open Scope nat_scope.

(** ** Lengths of the formatted parts *)

Lemma length_repeat_char (c : ascii) (k : nat) :
  String.length (repeat_char c k) = k.
Proof. induction k; simpl; congruence. Qed.

Lemma length_upper (s : string) : String.length (upper s) = String.length s.
Proof. induction s; simpl; congruence. Qed.

Lemma length_align_center (fill : ascii) (width : nat) (s : string) :
  String.length (align_center fill width s)
  = Nat.max width (String.length s).
Proof.
  unfold align_center. rewrite !length_append, !length_repeat_char.
  pose proof (Nat.Div0.div_le_upper_bound
                (width - String.length s) 2 (width - String.length s)).
  assert ((width - String.length s) / 2 <= width - String.length s)
    by (apply Nat.Div0.div_le_upper_bound; lia).
  lia.
Qed.

Lemma length_align_right (fill : ascii) (width : nat) (s : string) :
  String.length (align_right fill width s)
  = Nat.max width (String.length s).
Proof.
  unfold align_right. rewrite length_append, length_repeat_char. lia.
Qed.

Lemma length_string_of_uint (d : Decimal.uint) :
  String.length (DecimalString.NilEmpty.string_of_uint d)
  = Decimal.nb_digits d.
Proof. induction d; simpl; congruence. Qed.

(** ** The number of digits of a number *)

Lemma of_uint_acc_lower (d : Decimal.uint) :
  forall acc : positive,
    (Npos acc * 10 ^ N.of_nat (Decimal.nb_digits d)
     <= Npos (Pos.of_uint_acc d acc))%N.
Proof.
  induction d; intros acc;
    cbn [Pos.of_uint_acc Decimal.nb_digits];
    [ rewrite N.mul_1_r; apply N.le_refl | .. ];
    (eapply N.le_trans; [|apply IHd]);
    rewrite Nat2N.inj_succ, N.pow_succ_r';
    (assert (Hp : (0 < 10 ^ N.of_nat (Decimal.nb_digits d))%N)
       by (apply N.neq_0_lt_0, N.pow_nonzero; discriminate));
    nia.
Qed.

(** A numeral that starts with a digit other than 0 is worth at least
    [10 ^ (digits - 1)]. *)
Lemma of_uint_lower (d : Decimal.uint) :
  match d with
  | Decimal.Nil | Decimal.D0 _ => True
  | _ => (10 ^ N.of_nat (Decimal.nb_digits d - 1) <= Pos.of_uint d)%N
  end.
Proof.
  destruct d; try exact I;
    cbn [Pos.of_uint Decimal.nb_digits]; rewrite Nat.sub_succ, Nat.sub_0_r;
    (eapply N.le_trans; [|apply of_uint_acc_lower]);
    (assert (Hp : (0 < 10 ^ N.of_nat (Decimal.nb_digits d))%N)
       by (apply N.neq_0_lt_0, N.pow_nonzero; discriminate));
    nia.
Qed.

(** The numeral of a positive number does not start with 0. *)
Lemma to_uint_head (p : positive) :
  match Pos.to_uint p with
  | Decimal.Nil | Decimal.D0 _ => False
  | _ => True
  end.
Proof.
  pose proof (DecimalPos.Unsigned.to_of (Pos.to_uint p)) as Hn.
  rewrite DecimalPos.Unsigned.of_to in Hn. cbn [N.to_uint] in Hn.
  pose proof (DecimalPos.Unsigned.to_uint_nonnil p) as Hnil.
  pose proof (DecimalPos.Unsigned.to_uint_nonzero p) as Hz.
  destruct (Pos.to_uint p) as [|d| | | | | | | | |]; try exact I.
  - apply Hnil. reflexivity.
  - rewrite DecimalFacts.unorm_D0 in Hn.
    destruct d as [|d| | | | | | | | |];
      try (apply Hz; reflexivity);
      match type of Hn with
      | _ = Decimal.unorm ?u =>
          assert (Hu : u <> Decimal.Nil) by discriminate;
          pose proof (DecimalFacts.nb_digits_unorm u Hu) as Hle;
          rewrite <- Hn in Hle; cbn [Decimal.nb_digits] in Hle; lia
      end.
Qed.

(** A number below [10^k] is written with at most [k] digits. *)
Lemma str_length_le (n : N) (k : nat) :
  1 <= k -> (n < 10 ^ N.of_nat k)%N -> String.length (str n) <= k.
Proof.
  intros Hk Hn. unfold str. rewrite length_string_of_uint.
  destruct n as [|p]; [simpl; exact Hk|]. cbn [N.to_uint].
  pose proof (to_uint_head p) as Hh.
  pose proof (of_uint_lower (Pos.to_uint p)) as Hl.
  rewrite DecimalPos.Unsigned.of_to in Hl.
  destruct (Pos.to_uint p) eqn:Ed; try contradiction;
    cbn [Decimal.nb_digits] in *;
    rewrite Nat.sub_succ, Nat.sub_0_r in Hl;
    (assert (Hlt : (10 ^ N.of_nat (Decimal.nb_digits u)
                    < 10 ^ N.of_nat k)%N)
       by (eapply N.le_lt_trans; [exact Hl | exact Hn]));
    apply N.pow_lt_mono_r_iff in Hlt; lia.
Qed.

Lemma str_length_pos (n : N) : 1 <= String.length (str n).
Proof.
  unfold str. rewrite length_string_of_uint. destruct n as [|p]; [simpl; lia|].
  cbn [N.to_uint]. pose proof (to_uint_head p) as Hh.
  destruct (Pos.to_uint p); try contradiction; simpl; lia.
Qed.

Lemma of_uint_acc_upper (d : Decimal.uint) :
  forall acc : positive,
    (Npos (Pos.of_uint_acc d acc) + 1
     <= (Npos acc + 1) * 10 ^ N.of_nat (Decimal.nb_digits d))%N.
Proof.
  induction d; intros acc;
    cbn [Pos.of_uint_acc Decimal.nb_digits];
    [ rewrite N.mul_1_r; apply N.le_refl | .. ];
    (eapply N.le_trans; [apply IHd|]);
    rewrite Nat2N.inj_succ, N.pow_succ_r';
    (assert (Hp : (0 < 10 ^ N.of_nat (Decimal.nb_digits d))%N)
       by (apply N.neq_0_lt_0, N.pow_nonzero; discriminate));
    nia.
Qed.

(** A numeral of [k] digits is worth less than [10^k]. *)
Lemma of_uint_upper (d : Decimal.uint) :
  (Pos.of_uint d < 10 ^ N.of_nat (Decimal.nb_digits d))%N.
Proof.
  induction d; cbn [Pos.of_uint Decimal.nb_digits];
    try (rewrite Nat2N.inj_succ, N.pow_succ_r' in *);
    try (pose proof (of_uint_acc_upper d 1) as H1);
    try (pose proof (of_uint_acc_upper d 2) as H2);
    try (pose proof (of_uint_acc_upper d 3) as H3);
    try (pose proof (of_uint_acc_upper d 4) as H4);
    try (pose proof (of_uint_acc_upper d 5) as H5);
    try (pose proof (of_uint_acc_upper d 6) as H6);
    try (pose proof (of_uint_acc_upper d 7) as H7);
    try (pose proof (of_uint_acc_upper d 8) as H8);
    try (pose proof (of_uint_acc_upper d 9) as H9);
    try (assert (Hp : (0 < 10 ^ N.of_nat (Decimal.nb_digits d))%N)
           by (apply N.neq_0_lt_0, N.pow_nonzero; discriminate));
    [ simpl; lia | nia .. ].
Qed.

Lemma str_length_lower (n : N) :
  (n < 10 ^ N.of_nat (String.length (str n)))%N.
Proof.
  unfold str. rewrite length_string_of_uint.
  pose proof (of_uint_upper (N.to_uint n)) as H.
  change (Pos.of_uint (N.to_uint n)) with (N.of_uint (N.to_uint n)) in H.
  rewrite DecimalN.Unsigned.of_to in H. exact H.
Qed.

Lemma format_zero_d_length (width : nat) (n : N) :
  1 <= width -> (n < 10 ^ N.of_nat width)%N ->
  String.length (format_zero_d width n) = width.
Proof.
  intros Hw Hn. unfold format_zero_d. rewrite length_align_right.
  pose proof (str_length_le n width Hw Hn). lia.
Qed.

(** ** Widths *)

(** X12.  A cell is written in five columns exactly when its value is
    below 100000; a larger value takes as many columns as it has digits:
    the text is never shorter than five characters and no digit is
    dropped. *)
Theorem cell_width (n : N) :
  String.length (format_zero_d number_offset n)
  = Nat.max 5 (String.length (str n))
  /\ (String.length (format_zero_d number_offset n) = 5 <-> (n < 100000)%N).
Proof.
  unfold format_zero_d. rewrite length_align_right.
  change number_offset with 5. split; [reflexivity|]. split.
  - intros H. pose proof (str_length_lower n) as Hn.
    assert (Hle : String.length (str n) <= 5) by lia.
    eapply N.lt_le_trans; [exact Hn|].
    change 100000%N with (10 ^ N.of_nat 5)%N.
    apply N.pow_le_mono_r; [discriminate | lia].
  - intros H. assert (String.length (str n) <= 5)
      by (apply str_length_le; [lia | exact H]).
    lia.
Qed.

(** X13.  For an ASCII section name, the banners are [section_size] =
    103 characters wide when the name has at most 87 characters, as is
    the line of column numbers; a longer name makes the banner longer,
    by the bare label, and is not cut. *)
Theorem banner_width (section_name : string) :
  TextShape.all_chars TextShape.is_ascii section_name = true ->
  String.length (section_start section_name)
  = Nat.max section_size (String.length section_name + 16)
  /\ String.length (section_end section_name)
     = Nat.max section_size (String.length section_name + 14)
  /\ String.length
       (String.append (repeat_char " " (index_offset + added_offset))
          column_header)
     = section_size
  /\ (String.length section_name <= 87 ->
      String.length (section_start section_name) = section_size
      /\ String.length (section_end section_name) = section_size).
Proof.
  intros _.
  assert (Hs : String.length (section_start section_name)
               = Nat.max section_size (String.length section_name + 16)).
  { unfold section_start. rewrite length_align_center.
    cbn [String.append]. cbn [String.length].
    rewrite length_append, length_upper. cbn [String.length]. lia. }
  assert (He : String.length (section_end section_name)
               = Nat.max section_size (String.length section_name + 14)).
  { unfold section_end. rewrite length_align_center.
    cbn [String.append]. cbn [String.length].
    rewrite length_append, length_upper. cbn [String.length]. lia. }
  split; [exact Hs|]. split; [exact He|]. split; [reflexivity|].
  intros Hn. rewrite Hs, He. change section_size with 103. lia.
Qed.

Lemma banner_width_witness :
  String.length (section_start "ADDR_STACK") = section_size
  /\ String.length (section_end "ADDR_STACK") = section_size.
Proof.
  apply (banner_width "ADDR_STACK"); [reflexivity | simpl; lia].
Defined.

Lemma length_join_cells (cells : list N) :
  Forall (fun c => (c < 100000)%N) cells ->
  cells <> [] ->
  String.length (join " " (map (format_zero_d number_offset) cells)) + 1
  = 6 * List.length cells.
Proof.
  induction 1 as [|c cells Hc Hcs IH]; intros Hne; [contradiction|].
  cbn [map]. rewrite join_cons, length_append.
  rewrite (format_zero_d_length number_offset c
             ltac:(unfold number_offset; lia) Hc).
  destruct cells as [|c' cells]; [reflexivity|].
  cbn [map] in *. rewrite length_append.
  specialize (IH ltac:(discriminate)).
  cbn [List.length String.length] in *. unfold number_offset in *. lia.
Qed.

(** X14.  With the index below 10000 and every cell below 100000, a line
    of cells is [7 + 6 * cells] characters long, line break included: a
    full line of sixteen cells is [section_size] = 103 characters, the
    width of the banners. *)
Theorem row_width (index : nat) (cells : list N) :
  (N.of_nat index < 10000)%N ->
  Forall (fun c => (c < 100000)%N) cells ->
  cells <> [] ->
  String.length (row_text index cells) = 7 + 6 * List.length cells
  /\ (List.length cells = offset ->
      String.length (row_text index cells) = section_size).
Proof.
  intros Hi Hc Hne.
  assert (Hlen : String.length (row_text index cells)
                 = 7 + 6 * List.length cells).
  { unfold row_text. rewrite !length_append.
    rewrite (format_zero_d_length index_offset (N.of_nat index)
               ltac:(unfold index_offset; lia) Hi).
    pose proof (length_join_cells cells Hc Hne) as Hj.
    unfold index_offset, nl. cbn [String.length]. lia. }
  split; [exact Hlen|]. intros H16. rewrite Hlen, H16. reflexivity.
Qed.

Lemma row_width_witness :
  String.length (row_text 16 (map N.of_nat (seq 16 16))) = section_size.
Proof.
  apply (row_width 16 (map N.of_nat (seq 16 16))).
  - reflexivity.
  - repeat constructor.
  - discriminate.
  - reflexivity.
Defined.

End DumpWidth.

(** * Reading the cells back from a dump *)

Module DumpReadBack.

Import Dump DumpText DumpProofs DumpFacts TextShape DumpLossless DumpWidth.
Import DumpReader.

Local Open Scope nat_scope.

(** ** Splitting *)

Lemma split_on_whole (c : ascii) (a : string) :
  all_chars (other_than c) a = true -> split_on c a = [a].
Proof.
  induction a as [|x a IH]; [reflexivity|].
  cbn [all_chars split_on]. unfold other_than at 1.
  intros H. apply andb_true_iff in H. destruct H as [Hx Ha].
  destruct (Ascii.eqb x c); [discriminate Hx|].
  rewrite (IH Ha). reflexivity.
Qed.

Lemma split_on_app (c : ascii) (a b : string) :
  all_chars (other_than c) a = true ->
  split_on c (String.append a (String c b)) = a :: split_on c b.
Proof.
  induction a as [|x a IH]; intros H.
  - cbn [String.append split_on]. rewrite Ascii.eqb_refl. reflexivity.
  - cbn [all_chars] in H. unfold other_than at 1 in H.
    apply andb_true_iff in H. destruct H as [Hx Ha].
    cbn [String.append split_on].
    destruct (Ascii.eqb x c); [discriminate Hx|].
    rewrite (IH Ha). reflexivity.
Qed.

Lemma split_on_join (c : ascii) (ps : list string) :
  Forall (fun p => all_chars (other_than c) p = true) ps ->
  ps <> [] ->
  split_on c (join (String c EmptyString) ps) = ps.
Proof.
  induction 1 as [|p ps Hp Hps IH]; intros Hne; [contradiction|].
  rewrite join_cons. destruct ps as [|q ps].
  - rewrite append_nil_r. apply split_on_whole. exact Hp.
  - cbn [String.append]. rewrite split_on_app by exact Hp.
    rewrite IH by discriminate. reflexivity.
Qed.

(** ** Numbers *)

Lemma digit_not_space (c : ascii) :
  is_digit c = true -> other_than " " c = true.
Proof.
  unfold other_than. destruct (Ascii.eqb_spec c " ") as [->|];
    [discriminate | reflexivity].
Qed.

Lemma format_zero_d_nonempty_any (width : nat) (n : N) :
  format_zero_d width n <> EmptyString.
Proof.
  intros E. apply (f_equal String.length) in E.
  unfold format_zero_d in E. rewrite length_align_right in E.
  pose proof (str_length_pos n). simpl in E. lia.
Qed.

Lemma read_number_format (width : nat) (n : N) :
  read_number (format_zero_d width n) = Some n.
Proof.
  unfold read_number.
  destruct (format_zero_d width n) eqn:E.
  - exfalso. apply (format_zero_d_nonempty_any width n). exact E.
  - rewrite <- E. apply format_zero_d_read.
Qed.

Lemma read_numbers_format (width : nat) (cells : list N) :
  read_numbers (map (format_zero_d width) cells) = Some cells.
Proof.
  induction cells as [|c cells IH]; [reflexivity|].
  cbn [map read_numbers]. rewrite read_number_format, IH. reflexivity.
Qed.

Lemma starts_with_digit_app (s rest : string) :
  all_chars is_digit s = true -> s <> EmptyString ->
  starts_with_digit (String.append s rest) = true.
Proof.
  destruct s as [|c s]; [intros _ H; contradiction H; reflexivity|].
  cbn [all_chars String.append starts_with_digit].
  intros H _. apply andb_true_iff in H. apply H.
Qed.

(** ** One line *)

(** A line of cells is a line break and then the index, the bar and
    the cells. *)
Lemma row_text_body (index : nat) (cells : list N) :
  row_text index cells = String (ascii_of_nat 10) (row_body index cells).
Proof. reflexivity. Qed.

Lemma read_row_body (index : nat) (cells : list N) :
  cells <> [] ->
  read_row (row_body index cells) = Some (N.of_nat index, cells).
Proof.
  intros Hne. unfold read_row, row_body. cbn [String.append].
  rewrite split_on_app
    by (apply (all_chars_weaken is_digit);
        [apply digit_not_space | apply format_zero_d_digits]).
  change (String "|" (String " " ?x))
    with (String.append "|" (String " " x)).
  rewrite split_on_app by reflexivity.
  rewrite split_on_join.
  - simpl (String.eqb "|" "|").
    rewrite read_number_format, read_numbers_format. reflexivity.
  - apply Forall_forall. intros p Hp. apply in_map_iff in Hp.
    destruct Hp as (n & <- & _).
    apply (all_chars_weaken is_digit);
      [apply digit_not_space | apply format_zero_d_digits].
  - destruct cells; [contradiction | discriminate].
Qed.

Lemma row_body_no_newline (index : nat) (cells : list N) :
  all_chars not_newline (row_body index cells) = true.
Proof.
  unfold row_body. rewrite !all_chars_app.
  rewrite (all_chars_weaken is_digit not_newline _ digit_not_newline
             (format_zero_d_digits _ _)).
  rewrite join_all; [reflexivity | reflexivity |].
  eapply Forall_impl; [|apply cells_digits].
  intros p [Hp _]. apply (all_chars_weaken is_digit); [|exact Hp].
  apply digit_not_newline.
Qed.

Lemma row_body_starts_with_digit (index : nat) (cells : list N) :
  starts_with_digit (row_body index cells) = true.
Proof.
  unfold row_body. apply starts_with_digit_app.
  - apply format_zero_d_digits.
  - apply format_zero_d_nonempty_any.
Qed.

(** ** The lines of a section *)

Lemma rows_lines (rows : list (nat * list N)) (last : string) :
  all_chars not_newline last = true ->
  forall a : string,
    all_chars not_newline a = true ->
    split_on (ascii_of_nat 10)
      (String.append a
         (String.append
            (concat_text (map (fun r => row_text (fst r) (snd r)) rows))
            (String.append nl (String.append last (String.append nl nl)))))
    = a :: map (fun r => row_body (fst r) (snd r)) rows
        ++ [last; EmptyString; EmptyString].
Proof.
  intros Hlast. induction rows as [|r rows IH]; intros a Ha.
  - cbn [map concat_text fold_right String.append app nl].
    rewrite (split_on_app (ascii_of_nat 10) a) by exact Ha.
    rewrite (split_on_app (ascii_of_nat 10) last) by exact Hlast.
    reflexivity.
  - cbn [map concat_text fold_right]. rewrite row_text_body.
    cbn [String.append app].
    rewrite (split_on_app (ascii_of_nat 10) a) by exact Ha.
    rewrite append_assoc. rewrite IH by apply row_body_no_newline.
    reflexivity.
Qed.

Lemma upper_char_not_newline (c : ascii) :
  not_newline c = true -> not_newline (upper_char c) = true.
Proof.
  destruct c as [[|] [|] [|] [|] [|] [|] [|] [|]]; intros H;
    try reflexivity; exact H.
Qed.

Lemma upper_no_newline (s : string) :
  all_chars not_newline s = true -> all_chars not_newline (upper s) = true.
Proof.
  induction s as [|c s IH]; [reflexivity|]. cbn [upper all_chars].
  intros H. apply andb_true_iff in H. destruct H as [Hc Hs].
  rewrite (upper_char_not_newline c Hc), (IH Hs). reflexivity.
Qed.

Lemma align_center_all ok (fill : ascii) (width : nat) (s : string) :
  ok fill = true -> all_chars ok s = true ->
  all_chars ok (align_center fill width s) = true.
Proof.
  intros Hf Hs. unfold align_center.
  rewrite !all_chars_app, Hs, !repeat_char_all by exact Hf. reflexivity.
Qed.

Lemma section_start_no_newline (name : string) :
  all_chars not_newline name = true ->
  all_chars not_newline (section_start name) = true.
Proof.
  intros H. unfold section_start. apply align_center_all; [reflexivity|].
  rewrite !all_chars_app, (upper_no_newline name H). reflexivity.
Qed.

Lemma section_end_no_newline (name : string) :
  all_chars not_newline name = true ->
  all_chars not_newline (section_end name) = true.
Proof.
  intros H. unfold section_end. apply align_center_all; [reflexivity|].
  rewrite !all_chars_app, (upper_no_newline name H). reflexivity.
Qed.

Lemma section_end_not_a_row (name : string) :
  starts_with_digit (section_end name) = false.
Proof.
  unfold section_end, align_center.
  destruct ((section_size
             - String.length
                 (String.append "["
                    (String.append (upper name) " SECTION END]"))) / 2);
    reflexivity.
Qed.

Lemma section_lines (name : string) (cells : list N) :
  all_chars not_newline name = true ->
  split_on (ascii_of_nat 10) (segment_text name cells)
  = section_start name
    :: String.append (repeat_char " " (index_offset + added_offset))
         column_header
    :: map (fun r => row_body (fst r) (snd r)) (dump_rows cells)
    ++ [section_end name; EmptyString; EmptyString].
Proof.
  intros Hname. unfold segment_text.
  rewrite (append_assoc (section_start name) nl). cbn [nl String.append].
  rewrite split_on_app by (apply section_start_no_newline; exact Hname).
  rewrite <- (append_assoc (repeat_char " " (index_offset + added_offset))).
  f_equal.
  apply (rows_lines (dump_rows cells) (section_end name)
           (section_end_no_newline name Hname)).
  reflexivity.
Qed.

(** ** The cells of a section *)

Lemma chunks_from_nonempty :
  forall fuel index (cells : list N),
    Forall (fun r => snd r <> []) (chunks_from fuel index cells).
Proof.
  induction fuel as [|fuel IH]; intros index cells; [constructor|].
  destruct cells as [|c cells]; [constructor|].
  cbn [chunks_from]. constructor; [discriminate | apply IH].
Qed.

Lemma read_rows_lines (rows : list (nat * list N)) (last : string) :
  Forall (fun r => snd r <> []) rows ->
  starts_with_digit last = false ->
  read_rows (map (fun r => row_body (fst r) (snd r)) rows
             ++ [last; EmptyString; EmptyString])
  = Some (map (fun r => (N.of_nat (fst r), snd r)) rows).
Proof.
  intros Hrows Hlast. induction Hrows as [|r rows Hr Hrows IH].
  - cbn [map app read_rows]. rewrite Hlast. reflexivity.
  - cbn [map app read_rows].
    rewrite row_body_starts_with_digit, (read_row_body _ _ Hr), IH.
    reflexivity.
Qed.

(** Reading the text of a section gives its lines of cells. *)
Lemma read_section_text (name : string) (cells : list N) :
  all_chars not_newline name = true ->
  read_section (segment_text name cells)
  = Some (map (fun r => (N.of_nat (fst r), snd r)) (dump_rows cells)).
Proof.
  intros Hname. unfold read_section. rewrite (section_lines name cells Hname).
  apply read_rows_lines.
  - apply chunks_from_nonempty.
  - apply section_end_not_a_row.
Qed.

(** What was read is the segment, in the order of its indices. *)
Lemma read_section_cells (name : string) (cells : list N) :
  all_chars not_newline name = true ->
  emits_in_order (segment_text name cells) cells.
Proof.
  intros Hname. eexists. split; [apply (read_section_text name cells Hname)|].
  split.
  - rewrite map_map. cbn [snd].
    apply chunks_from_concat. apply Nat.le_refl.
  - intros k i row Hk. rewrite nth_error_map in Hk.
    destruct (nth_error (dump_rows cells) k) as [[j r]|] eqn:E;
      [|discriminate Hk].
    cbn [option_map fst snd] in Hk. injection Hk as <- <-.
    apply chunks_from_nth in E. destruct E as [-> ->]. split; reflexivity.
Qed.

Example read_section_small :
  read_section (segment_text "CACHE" (cache small_emulator))
  = Some [(0%N, map N.of_nat (seq 0 16)); (16%N, [16; 17; 18; 19]%N)].
Proof. vm_compute. reflexivity. Qed.

Example read_section_no_cells :
  read_section (segment_text "ADDR_STACK" []) = Some [].
Proof. vm_compute. reflexivity. Qed.

(** * The claim on the dump *)

(** C8.  The dump only reads the emulator, and it writes every cell.
    After [create_memory_dump], and after [_create_memory_dump] on any
    segment through a freshly opened file (with an ASCII name that holds
    no line break), the emulator is what it was: every cell of the four
    segments and each of the six registers has the value it had.  The
    file of a segment, read back, gives the whole segment in the order of
    its indices: line [k] carries the index [16 * k] and the cells from
    there on. *)
Theorem dump_reads_only :
  (forall path memory section_name w,
     all_chars is_ascii section_name = true ->
     all_chars not_newline section_name = true ->
     let w' := snd ((file <- open_w path ;;
                     _create_memory_dump file memory section_name) w) in
     let cells := segment_of (emulator w) memory in
     emulator w' = emulator w
     /\ (forall m i,
           nth_error (segment_of (emulator w') m) i
           = nth_error (segment_of (emulator w) m) i)
     /\ (forall r, register_of (emulator w') r = register_of (emulator w) r)
     /\ files w' path = segment_text section_name cells
     /\ emits_in_order (files w' path) cells)
  /\ (forall filepath w,
        let w' := snd (create_memory_dump filepath w) in
        let e := emulator w in
        emulator w' = e
        /\ (forall memory i,
              nth_error (segment_of (emulator w') memory) i
              = nth_error (segment_of e memory) i)
        /\ (forall r, register_of (emulator w') r = register_of e r)
        /\ emits_in_order (files w' (String.append filepath ".CACHE.dmp"))
             (cache e)
        /\ emits_in_order (files w' (String.append filepath ".STACK.dmp"))
             (stack e)
        /\ emits_in_order
             (files w' (String.append filepath ".ADDR_STACK.dmp"))
             (address_stack e)
        /\ emits_in_order (files w' (String.append filepath ".PORTS.dmp"))
             (ports e)
        /\ files w' (String.append filepath ".CACHE.dmp")
           = segment_text "CACHE" (cache e)
        /\ files w' (String.append filepath ".STACK.dmp")
           = segment_text "STACK" (stack e)
        /\ files w' (String.append filepath ".ADDR_STACK.dmp")
           = segment_text "ADDR_STACK" (address_stack e)
        /\ files w' (String.append filepath ".PORTS.dmp")
           = segment_text "PORTS" (ports e)
        /\ files w' (String.append filepath ".REGISTERS.dmp")
           = registers_text e).
Proof.
  split.
  - intros path memory section_name w _ Hname w' cells.
    assert (Hc : creates path (segment_text section_name cells) w w').
    { unfold w'. rewrite bind_run. cbn [open_w fst].
      apply creates_section. }
    destruct Hc as [He Hf].
    assert (Hfile : files w' path = segment_text section_name cells)
      by (rewrite Hf, String.eqb_refl; reflexivity).
    split; [exact He|]. split; [intros; rewrite He; reflexivity|].
    split; [intros; rewrite He; reflexivity|].
    split; [exact Hfile|].
    rewrite Hfile. apply read_section_cells. exact Hname.
  - intros filepath w w' e.
    assert (He : emulator w' = e) by apply create_memory_dump_emulator.
    assert (Hcache : files w' (String.append filepath ".CACHE.dmp")
                     = segment_text "CACHE" (cache e)).
    { unfold w'. rewrite create_memory_dump_files.
      repeat first [ rewrite String.eqb_refl; reflexivity
                   | rewrite eqb_append_neq by discriminate ]. }
    assert (Hstack : files w' (String.append filepath ".STACK.dmp")
                     = segment_text "STACK" (stack e)).
    { unfold w'. rewrite create_memory_dump_files.
      repeat first [ rewrite String.eqb_refl; reflexivity
                   | rewrite eqb_append_neq by discriminate ]. }
    assert (Haddr : files w' (String.append filepath ".ADDR_STACK.dmp")
                    = segment_text "ADDR_STACK" (address_stack e)).
    { unfold w'. rewrite create_memory_dump_files.
      repeat first [ rewrite String.eqb_refl; reflexivity
                   | rewrite eqb_append_neq by discriminate ]. }
    assert (Hports : files w' (String.append filepath ".PORTS.dmp")
                     = segment_text "PORTS" (ports e)).
    { unfold w'. rewrite create_memory_dump_files.
      repeat first [ rewrite String.eqb_refl; reflexivity
                   | rewrite eqb_append_neq by discriminate ]. }
    assert (Hregs : files w' (String.append filepath ".REGISTERS.dmp")
                    = registers_text e).
    { unfold w'. rewrite create_memory_dump_files.
      rewrite String.eqb_refl. reflexivity. }
    split; [exact He|]. split; [intros; rewrite He; reflexivity|].
    split; [intros; rewrite He; reflexivity|].
    rewrite Hcache, Hstack, Haddr, Hports, Hregs.
    repeat split; apply read_section_cells; reflexivity.
Qed.

Lemma dump_reads_only_witness :
  emits_in_order
    (files (snd ((file <- open_w "out" ;;
                  _create_memory_dump file Cache "cache")
                 (mkWorld small_emulator (fun _ => "old text"%string))))
       "out"%string)
    (map N.of_nat (seq 0 20)).
Proof.
  apply (proj1 dump_reads_only "out"%string Cache "cache"%string
           (mkWorld small_emulator (fun _ => "old text"%string)));
    reflexivity.
Defined.

End DumpReadBack.
